(** * Balance aggregation and polling of the agent dashboard

    A shallow embedding of the dashboard's balance subsystem:
    - [Multicall]  : service/Multicall.ts ([getEthBalances], [getErc20Balances]);
    - [Services]   : the ServicesProvider context ([serviceAddresses], the
                     list and status refresh loops);
    - [WalletCtx]  : the WalletProvider context ([updateBalance] and its
                     interval).

    JavaScript numbers are IEEE 754 binary64 values, so balances are
    [PrimFloat.float] and [+] is [PrimFloat.add]. *)

From Stdlib Require Import ZArith List Ascii String Lia PrimFloat.
From stdpp Require Import base gmap strings list fin_maps.
Import ListNotations.
Local Open Scope string_scope.
Local Open Scope nat_scope.
Local Open Scope list_scope.

(** ** JavaScript values used by the providers *)

Module Js.

(** The outcome of a promise once it has settled
    (the elements of [Promise.allSettled]'s result). *)
Inductive Settled (A : Type) : Type :=
| Fulfilled (value : A)
| Rejected (reason : string).
Arguments Fulfilled {A} value.
Arguments Rejected {A} reason.

(** [promise.then(f)]: a rejection passes through untouched. *)
Definition and_then {A B} (p : Settled A) (f : A -> B) : Settled B :=
  match p with
  | Fulfilled v => Fulfilled (f v)
  | Rejected e => Rejected e
  end.

(** A value of type [Address | undefined]. *)
Definition Val := option string.

(** Template literal [`${v}`]. *)
Definition template (v : Val) : string :=
  match v with
  | Some s => s
  | None => "undefined"
  end.

(** Truthiness of a string-or-undefined value: [undefined] and the empty
    string are falsy. *)
Definition truthy (v : Val) : bool :=
  match v with
  | Some EmptyString => false
  | Some _ => true
  | None => false
  end.

(** [arr.reduce((acc, x, index) => f(acc, x, index), init)]. *)
Fixpoint reduce_from {A B} (f : B -> A -> nat -> B) (index : nat)
         (arr : list A) (acc : B) : B :=
  match arr with
  | [] => acc
  | x :: rest => reduce_from f (S index) rest (f acc x index)
  end.

Definition reduce {A B} (f : B -> A -> nat -> B) (arr : list A) (init : B) : B :=
  reduce_from f 0 arr init.

(** [obj[arr[index]]]'s key: an out-of-range read is [undefined], which a
    computed property name turns into the string "undefined". *)
Definition key_at (arr : list string) (index : nat) : string :=
  template (arr !! index).

End Js.

Import Js.

Definition Address := string.

(** ** service/Multicall.ts *)

Module Multicall.

Inductive Param : Type :=
| PStr (s : string)
| PArr (l : list Address).

(** A call description built by an ethers-multicall [Contract]. *)
Record ContractCall : Type := mkCall {
  contract : Address;
  name : string;
  params : list Param
}.

(** [new Provider(new StaticJsonRpcProvider(rpc, network), chainId)]. *)
Record Provider : Type := mkProvider {
  url : string;
  network : option (Z * string);
  chainId : Z
}.

Section WithChain.

(** [MULTICALL_CONTRACT] of [@/constants]. *)
Variable MULTICALL_CONTRACT : Address.

(** [multicallProvider.all(callData)]: one aggregate round-trip that
    either rejects or yields the decoded return values. *)
Variable all : Provider -> list ContractCall -> Settled (list Z).

(** [ethers.utils.formatEther], [ethers.utils.formatUnits] and the
    global [parseFloat]. *)
Variable formatEther : Z -> string.
Variable formatUnits : Z -> Z -> string.
Variable parseFloat : string -> float.

Definition ethCallData (addresses : list Address) : list ContractCall :=
  map (fun address => mkCall MULTICALL_CONTRACT "getEthBalance" [PStr address])
      addresses.

Definition getEthBalances (addresses : list Address) (rpc : string)
  : Settled (gmap string float) :=
  let multicallProvider := mkProvider rpc (Some (100%Z, "Gnosis")) 100 in
  let callData := ethCallData addresses in
  and_then (all multicallProvider callData) (fun responseData =>
    reduce (fun acc balance index =>
              <[key_at addresses index := parseFloat (formatEther balance)]> acc)
           responseData ∅).

Definition erc20CallData (addresses : list Address) (contractAddress : Address)
  : list ContractCall :=
  map (fun address =>
         mkCall MULTICALL_CONTRACT "call"
                [PStr contractAddress; PStr "balanceOf(address):(uint256)";
                 PArr [address]])
      addresses.

Definition getErc20Balances (addresses : list Address) (rpc : string)
           (contractAddress : Address) : Settled (gmap string float) :=
  let multicallProvider := mkProvider rpc None 100 in
  let callData := erc20CallData addresses contractAddress in
  and_then (all multicallProvider callData) (fun r =>
    reduce (fun acc balance index =>
              <[key_at addresses index := parseFloat (formatUnits balance 18)]> acc)
           r ∅).

End WithChain.

End Multicall.

(** ** usehooks-ts [useInterval(callback, delay)]

    The hook hands the callback to the host's [setInterval] while [delay]
    is a number and installs nothing while it is [null]; the host calls the
    callback every [delay] milliseconds and drops whatever it returns. *)

Module Interval.

Definition fires (delay : option nat) (t : nat) : bool :=
  match delay with
  | None => false
  | Some d => (0 <? t) && (t mod d =? 0)
  end.

End Interval.

(** ** ServicesProvider *)

Module Services.

Record ChainData : Type := mkChainData {
  instances : option (list Address);
  multisig : Val
}.

Record Service : Type := mkService {
  hash : string;
  chain_data : ChainData
}.

Section Addresses.

(** [isAddress] of ethers/lib/utils. *)
Variable isAddress : string -> bool.

(** The inner reduce over [instances ?? []]. *)
Definition validInstances (instances : option (list Address)) : list Address :=
  fold_left
    (fun (acc : list Address) (instance : Address) =>
       if isAddress (template (Some instance)) then acc ++ [instance] else acc)
    (default [] instances) [].

(** One step of the outer reduce: push the valid instances, then the
    multisig when it is an address. *)
Definition collect (acc : list Val) (s : Service) : list Val :=
  let acc := acc ++ map Some (validInstances (instances (chain_data s))) in
  if isAddress (template (multisig (chain_data s)))
  then acc ++ [multisig (chain_data s)]
  else acc.

Definition serviceAddresses (services : list Service) : list Val :=
  fold_left collect services [].

End Addresses.

Section Provider.

(** [DeploymentStatus] of [@/client]. *)
Variable DeploymentStatus : Type.

Record State : Type := mkState {
  services : list Service;
  serviceStatus : option DeploymentStatus;
  hasInitialLoaded : bool
}.

Definition setServices (data : list Service) (s : State) : State :=
  mkState data (serviceStatus s) (hasInitialLoaded s).

Definition setServiceStatus (status : DeploymentStatus) (s : State) : State :=
  mkState (services s) (Some status) (hasInitialLoaded s).

Definition setHasInitialLoaded (b : bool) (s : State) : State :=
  mkState (services s) (serviceStatus s) b.

(** [services.length ? 5000 : null] *)
Definition statusDelay (s : State) : option nat :=
  match length (services s) with
  | 0 => None
  | S _ => Some 5000
  end.

(** [hasInitialLoaded ? 5000 : null] *)
Definition listDelay (s : State) : option nat :=
  if hasInitialLoaded s then Some 5000 else None.

(** The provider together with its outstanding requests.  Every event
    below is one turn of the event loop: a timer callback, or the whole
    reaction chain of a request that settled (the chain runs to its end
    before any timer is served). *)
Record Loop : Type := mkLoop {
  state : State;
  initialPending : bool;          (* the mount effect's getServices() *)
  listInFlight : nat;             (* getServices() calls of the list interval *)
  statusInFlight : list string;   (* hashes passed to getDeployment *)
  notifications : list string     (* message.error *)
}.

Definition mounted : Loop :=
  mkLoop (mkState [] None false) true 0 [] [].

Inductive Event : Type :=
| InitialSettled (r : Settled (list Service))
| ListTick
| ListSettled (r : Settled (list Service))
| StatusTick
| StatusSettled (r : Settled DeploymentStatus).

Definition step (l : Loop) (e : Event) : option Loop :=
  match e with
  | InitialSettled r =>
      (* updateServicesState().then(() => setHasInitialLoaded(true)) *)
      if initialPending l then
        match r with
        | Fulfilled data =>
            Some (mkLoop (setHasInitialLoaded true (setServices data (state l)))
                         false (listInFlight l) (statusInFlight l) (notifications l))
        | Rejected _ =>
            Some (mkLoop (state l) false (listInFlight l) (statusInFlight l)
                         (notifications l))
        end
      else None
  | ListTick =>
      match listDelay (state l) with
      | Some _ =>
          Some (mkLoop (state l) (initialPending l) (S (listInFlight l))
                       (statusInFlight l) (notifications l))
      | None => None
      end
  | ListSettled r =>
      (* updateServicesState().catch((e) => message.error(e.message)) *)
      match listInFlight l with
      | S n =>
          match r with
          | Fulfilled data =>
              Some (mkLoop (setServices data (state l)) (initialPending l) n
                           (statusInFlight l) (notifications l))
          | Rejected msg =>
              Some (mkLoop (state l) (initialPending l) n (statusInFlight l)
                           (notifications l ++ [msg]))
          end
      | 0 => None
      end
  | StatusTick =>
      match statusDelay (state l) with
      | Some _ =>
          match services (state l) with
          | first :: _ =>
              (* getDeployment(services[0].hash) *)
              Some (mkLoop (state l) (initialPending l) (listInFlight l)
                           (statusInFlight l ++ [hash first]) (notifications l))
          | [] =>
              (* reading [hash] of undefined throws; nothing is requested *)
              Some l
          end
      | None => None
      end
  | StatusSettled r =>
      match statusInFlight l with
      | _ :: rest =>
          match r with
          | Fulfilled status =>
              Some (mkLoop (setServiceStatus status (state l)) (initialPending l)
                           (listInFlight l) rest (notifications l))
          | Rejected _ =>
              Some (mkLoop (state l) (initialPending l) (listInFlight l) rest
                           (notifications l))
          end
      | [] => None
      end
  end.

Fixpoint run (l : Loop) (events : list Event) : option Loop :=
  match events with
  | [] => Some l
  | e :: rest =>
      match step l e with
      | Some l' => run l' rest
      | None => None
      end
  end.

Definition isInitialFulfilled (e : Event) : bool :=
  match e with
  | InitialSettled (Fulfilled _) => true
  | _ => false
  end.

Definition isStatusTick (e : Event) : bool :=
  match e with
  | StatusTick => true
  | _ => false
  end.

End Provider.

Arguments mkState {DeploymentStatus} services serviceStatus hasInitialLoaded.
Arguments services {DeploymentStatus} s.
Arguments serviceStatus {DeploymentStatus} s.
Arguments hasInitialLoaded {DeploymentStatus} s.
Arguments setServices {DeploymentStatus} data s.
Arguments setServiceStatus {DeploymentStatus} status s.
Arguments setHasInitialLoaded {DeploymentStatus} b s.
Arguments statusDelay {DeploymentStatus} s.
Arguments listDelay {DeploymentStatus} s.
Arguments mkLoop {DeploymentStatus} state initialPending listInFlight
        statusInFlight notifications.
Arguments state {DeploymentStatus} l.
Arguments initialPending {DeploymentStatus} l.
Arguments listInFlight {DeploymentStatus} l.
Arguments statusInFlight {DeploymentStatus} l.
Arguments notifications {DeploymentStatus} l.
Arguments mounted {DeploymentStatus}.
Arguments InitialSettled {DeploymentStatus} r.
Arguments ListTick {DeploymentStatus}.
Arguments ListSettled {DeploymentStatus} r.
Arguments StatusTick {DeploymentStatus}.
Arguments StatusSettled {DeploymentStatus} r.
Arguments step {DeploymentStatus} l e.
Arguments run {DeploymentStatus} l events.
Arguments isInitialFulfilled {DeploymentStatus} e.
Arguments isStatusTick {DeploymentStatus} e.

End Services.

(** ** WalletProvider *)

Module WalletCtx.

Record Wallet : Type := mkWallet {
  address : Val
}.

Record State : Type := mkState {
  wallets : list Wallet;
  balance : option float
}.

Definition created : State := mkState [] None.

Definition setWallets (ws : list Wallet) (s : State) : State :=
  mkState ws (balance s).

Definition setBalance (b : float) (s : State) : State :=
  mkState (wallets s) (Some b).

(** [getAddress] is the function imported from ethers/lib/utils; the
    loops test the import itself, which is always there. *)
Definition getAddress_imported : bool := true.

(** Body of both [for ... of] loops:
    [if (!getAddress || !x) continue; walletsToCheck.push(x)]. *)
Definition pushIfPresent (acc : list Address) (x : Val) : list Address :=
  if negb getAddress_imported || negb (truthy x) then acc
  else match x with
       | Some a => acc ++ [a]
       | None => acc
       end.

Definition walletsToCheck (ws : list Wallet) (serviceAddresses : list Val)
  : list Address :=
  let fromWallets :=
    fold_left (fun acc wallet => pushIfPresent acc (address wallet)) ws [] in
  fold_left pushIfPresent serviceAddresses fromWallets.

(** The reduce over [settledBalances]. *)
Definition sumFulfilled (settledBalances : list (Settled float)) : float :=
  fold_left
    (fun (acc : float) promise =>
       match promise with
       | Fulfilled value => PrimFloat.add acc value
       | Rejected _ => acc
       end)
    settledBalances 0%float.

(** [wallets.length ? 5000 : null] *)
Definition balanceDelay (s : State) : option nat :=
  match length (wallets s) with
  | 0 => None
  | S _ => Some 5000
  end.

Section Refresh.

(** [`${process.env.GNOSIS_RPC}`] *)
Variable GNOSIS_RPC : string.

(** [EthersService.getEthBalance(address, rpc)]: how the promise of the
    [index]-th call of a refresh settles. *)
Variable getEthBalance : nat -> Address -> string -> Settled float.

(** [balancePromises], once [Promise.allSettled] has resolved. *)
Definition settledBalances (toCheck : list Address) : list (Settled float) :=
  imap (fun index address => getEthBalance index address GNOSIS_RPC) toCheck.

(** The requests a refresh sends, in order. *)
Definition requests (toCheck : list Address) : list (Address * string) :=
  map (fun address => (address, GNOSIS_RPC)) toCheck.

(** One run of [updateBalance] from start to [setBalance]: the new
    state and the requests that were sent. *)
Definition updateBalance (serviceAddresses : list Val) (s : State)
  : State * list (Address * string) :=
  let toCheck := walletsToCheck (wallets s) serviceAddresses in
  let settled := settledBalances toCheck in
  (setBalance (sumFulfilled settled) s, requests toCheck).

End Refresh.

(** *** The poller in time

    Time is counted in milliseconds since the provider was mounted.  The
    wallet list and the service addresses stay fixed; the network decides
    how each request settles and how long a refresh has to wait for
    [Promise.allSettled]. *)

Record Cycle : Type := mkCycle {
  started : nat;
  settlesAt : nat;
  outcome : list (Settled float)
}.

Record Poller : Type := mkPoller {
  now : nat;
  state : State;
  inFlight : list Cycle;
  rpcLog : list (Address * string)
}.

Section Timed.

Variable GNOSIS_RPC : string.
Variable serviceAddresses : list Val.

(** The refresh started at time [t]: its requests settle as
    [getEthBalanceAt t] says, the last of them [latency t] ms later. *)
Variable getEthBalanceAt : nat -> nat -> Address -> string -> Settled float.
Variable latency : nat -> nat.

Definition publish (s : State) (c : Cycle) : State :=
  setBalance (sumFulfilled (outcome c)) s.

(** One millisecond: refreshes whose requests have all settled publish
    their sum (oldest first); then the interval, if it is due, calls
    [updateBalance] again. *)
Definition tick (p : Poller) : Poller :=
  let t := S (now p) in
  let finished := List.filter (fun c => settlesAt c <=? t) (inFlight p) in
  let waiting := List.filter (fun c => negb (settlesAt c <=? t)) (inFlight p) in
  let s := fold_left publish finished (state p) in
  if Interval.fires (balanceDelay s) t then
    let toCheck := walletsToCheck (wallets s) serviceAddresses in
    mkPoller t s
      (waiting ++ [mkCycle t (t + latency t)
                           (settledBalances GNOSIS_RPC (getEthBalanceAt t) toCheck)])
      (rpcLog p ++ requests GNOSIS_RPC toCheck)
  else mkPoller t s waiting (rpcLog p).

Definition start (ws : list Wallet) (b : option float) : Poller :=
  mkPoller 0 (mkState ws b) [] [].

Fixpoint after (n : nat) (p : Poller) : Poller :=
  match n with
  | 0 => p
  | S k => tick (after k p)
  end.

End Timed.

End WalletCtx.

(** ** Auxiliary definitions for the properties *)

(** The object one step of the balance reduce builds:
    [{ ...acc, [keys[index]]: decode(raw) }]. *)
Definition addEntry (keys : list string) (decode : Z -> float)
           (acc : gmap string float) (raw : Z) (index : nat) : gmap string float :=
  <[key_at keys index := decode raw]> acc.

Definition Val_eq_dec (x y : Val) : {x = y} + {x <> y} := decide (x = y).

(** Every value [serviceAddresses] looks at, in the order it looks at them:
    per service, the instances and then the multisig. *)
Definition addressCandidates (services : list Services.Service) : list Val :=
  flat_map
    (fun s =>
       map Some (default [] (Services.instances (Services.chain_data s)))
       ++ [Services.multisig (Services.chain_data s)])
    services.

(** The candidates that pass [isAddress], each as often as it occurs. *)
Definition validCandidates (isAddress : string -> bool)
           (services : list Services.Service) : list Val :=
  List.filter (fun v => isAddress (template v)) (addressCandidates services).

(** The values of the fulfilled promises, in order. *)
Definition fulfilledValues (settled : list (Settled float)) : list float :=
  flat_map
    (fun promise =>
       match promise with
       | Fulfilled value => [value]
       | Rejected _ => []
       end)
    settled.

(** The strings among a list of values that are neither [undefined] nor
    empty. *)
Definition presentAddresses (l : list Val) : list Address :=
  flat_map
    (fun v =>
       match v with
       | Some a => if truthy v then [a] else []
       | None => []
       end)
    l.

Definition wallet1111 : Address := "0x1111111111111111111111111111111111111111".
Definition wallet2222 : Address := "0x2222222222222222222222222222222222222222".
Definition wallet3333 : Address := "0x3333333333333333333333333333333333333333".

(** A stand-in for [isAddress] on the inputs used in the examples below: an
    optional "0x" followed by forty digits [0-9].  ethers accepts every such
    string (without letters there is no checksum to get wrong). *)
Definition isDigit (c : ascii) : bool :=
  let n := nat_of_ascii c in (48 <=? n) && (n <=? 57).

Fixpoint allDigits (s : string) : bool :=
  match s with
  | EmptyString => true
  | String c rest => isDigit c && allDigits rest
  end.

Definition digitAddress (s : string) : bool :=
  match s with
  | String "0"%char (String "x"%char rest) => (String.length rest =? 40) && allDigits rest
  | _ => (String.length s =? 40) && allDigits s
  end.

(** What holds of the ServicesProvider between any two turns of the event
    loop, relative to the events seen so far. *)
Record loop_inv {DeploymentStatus : Type}
       (history : list (Services.Event DeploymentStatus))
       (l : Services.Loop DeploymentStatus) : Prop := mkInv {
  inv_services :
    Services.services (Services.state l) <> [] ->
    Services.hasInitialLoaded (Services.state l) = true;
  inv_requests :
    0 < Services.listInFlight l ->
    Services.hasInitialLoaded (Services.state l) = true;
  inv_loaded :
    Services.hasInitialLoaded (Services.state l) = true ->
    existsb Services.isInitialFulfilled history = true
}.

(** *** Sample surroundings for the examples *)

(** An aggregator that answers every call with one unit (10^18 wei). *)
Definition sampleAll (_ : Multicall.Provider) (calls : list Multicall.ContractCall)
  : Settled (list Z) :=
  Fulfilled (map (fun _ => 1000000000000000000%Z) calls).

(** Decimal rendering and parsing that are right on the single amount the
    sample aggregator returns. *)
Definition sampleFormatUnits (raw : Z) (decimals : Z) : string :=
  if (raw =? 10 ^ decimals)%Z then "1.0" else "0.0".

Definition sampleFormatEther (raw : Z) : string := sampleFormatUnits raw 18.

Definition sampleParseFloat (s : string) : float :=
  if String.eqb s "1.0" then 1%float else 0%float.

Definition sampleMulticall : Address := "0xcA11bde05977b3631167028862bE2a173976CA11".

Definition sampleRpc : string := "https://rpc.gnosis".

Definition sampleService : Services.Service :=
  Services.mkService "0xA" (Services.mkChainData (Some [wallet1111]) (Some wallet2222)).

(** ** components/Wallet/Receive.tsx *)

Module Receive.

(** [wallets[0]?.address] *)
Definition walletAddress (wallets : list WalletCtx.Wallet) : Val :=
  match wallets with
  | [] => None
  | first :: _ => WalletCtx.address first
  end.

(** [`https://metamask.app.link/send/${walletAddress}@${100}`] *)
Definition qrValue (wallets : list WalletCtx.Wallet) : string :=
  String.append "https://metamask.app.link/send/"
    (String.append (template (walletAddress wallets))
       (String.append "@" "100")).

End Receive.

(** ** The account funding screen ([SetupEoaFunding]) *)

Module SetupEoaFunding.

(** The values the funding test computes with. *)
Inductive JsValue : Type :=
| JUndefined
| JString (s : string)
| JNumber (x : float)
| JBoolean (b : bool).

Definition jsTruthy (v : JsValue) : bool :=
  match v with
  | JUndefined => false
  | JString s => negb (String.eqb s EmptyString)
  | JNumber x => negb (PrimFloat.eqb x 0%float) && negb (PrimFloat.is_nan x)
  | JBoolean b => b
  end.

Definition ofVal (v : Val) : JsValue :=
  match v with
  | Some s => JString s
  | None => JUndefined
  end.

Inductive SetupScreen : Type :=
| SetupBackupSigner
| SetupCreateSafe.

Inductive Action : Type :=
| MessageSuccess (text : string)
| Goto (screen : SetupScreen).

Section Funding.

(** [MIN_ETH_BALANCE_THRESHOLDS[Chain.GNOSIS].safeCreation] of [@/constants]. *)
Variable safeCreation : float.

(** [Number(s)], the coercion [>=] applies to a string operand. *)
Variable toNumber : string -> float.

(** [v >= safeCreation] *)
Definition geThreshold (v : JsValue) : bool :=
  match v with
  | JUndefined => false
  | JString s => PrimFloat.leb safeCreation (toNumber s)
  | JNumber x => PrimFloat.leb safeCreation x
  | JBoolean b => PrimFloat.leb safeCreation (if b then 1%float else 0%float)
  end.

(** [masterEoaAddress && walletBalances?.[masterEoaAddress]?.ETH];
    [walletBalances] maps an address to its ETH amount. *)
Definition masterEaoEthBalance (masterEoaAddress : Val)
           (walletBalances : option (gmap string float)) : JsValue :=
  if truthy masterEoaAddress then
    match walletBalances with
    | Some balances =>
        match balances !! template masterEoaAddress with
        | Some eth => JNumber eth
        | None => JUndefined
        end
    | None => JUndefined
    end
  else ofVal masterEoaAddress.

(** [masterEaoEthBalance && masterEaoEthBalance >= threshold] *)
Definition isFundedMasterEoa (masterEoaAddress : Val)
           (walletBalances : option (gmap string float)) : JsValue :=
  let balance := masterEaoEthBalance masterEoaAddress walletBalances in
  if jsTruthy balance then JBoolean (geThreshold balance) else balance.

Definition statusMessage (isFunded : JsValue) : string :=
  if negb (jsTruthy isFunded) then "Waiting for transaction"
  else "Funds have been received!".

(** The effect that moves on to the safe creation screen. *)
Definition fundedEffect (isFunded : JsValue) : list Action :=
  if negb (jsTruthy isFunded) then []
  else [MessageSuccess "Funds have been received!"; Goto SetupCreateSafe].

End Funding.

End SetupEoaFunding.

(** ** Auxiliary definitions for the further properties *)

(** The messages of the rejected list refreshes, oldest first. *)
Definition listErrors {DeploymentStatus : Type}
           (events : list (Services.Event DeploymentStatus)) : list string :=
  flat_map
    (fun e =>
       match e with
       | Services.ListSettled (Rejected msg) => [msg]
       | _ => []
       end)
    events.

(** The service list delivered by the latest fulfilled fetch, [current]
    when there is none. *)
Definition lastServices {DeploymentStatus : Type}
           (current : list Services.Service)
           (events : list (Services.Event DeploymentStatus))
  : list Services.Service :=
  fold_left
    (fun acc e =>
       match e with
       | Services.InitialSettled (Fulfilled data) => data
       | Services.ListSettled (Fulfilled data) => data
       | _ => acc
       end)
    events current.

(** The status delivered by the latest fulfilled status request. *)
Definition lastStatus {DeploymentStatus : Type}
           (current : option DeploymentStatus)
           (events : list (Services.Event DeploymentStatus))
  : option DeploymentStatus :=
  fold_left
    (fun acc e =>
       match e with
       | Services.StatusSettled (Fulfilled status) => Some status
       | _ => acc
       end)
    events current.

(** A service list some fulfilled fetch among [events] delivered. *)
Definition delivered {DeploymentStatus : Type}
           (events : list (Services.Event DeploymentStatus))
           (data : list Services.Service) : Prop :=
  In (Services.InitialSettled (Fulfilled data)) events \/
  In (Services.ListSettled (Fulfilled data)) events.

(** *** Further sample surroundings *)

Definition sampleUnit : Z := 1000000000000000000%Z.

(** An aggregator that only serves chain 100. *)
Definition sampleAllChain100 (p : Multicall.Provider)
           (calls : list Multicall.ContractCall) : Settled (list Z) :=
  if (Multicall.chainId p =? 100)%Z then sampleAll p calls
  else Rejected "unsupported chain".

(** Aggregators that answer with one value too few and one too many. *)
Definition sampleAllShort (_ : Multicall.Provider)
           (calls : list Multicall.ContractCall) : Settled (list Z) :=
  Fulfilled (map (fun _ => sampleUnit) (tail calls)).

Definition sampleAllLong (_ : Multicall.Provider)
           (calls : list Multicall.ContractCall) : Settled (list Z) :=
  Fulfilled (map (fun _ => sampleUnit) calls ++ [sampleUnit]).

(** A short session of the ServicesProvider and the state it ends in. *)
Definition sampleEvents : list (Services.Event string) :=
  [Services.InitialSettled (Fulfilled [sampleService]);
   Services.ListTick;
   Services.ListSettled (Rejected "backend down");
   Services.StatusTick;
   Services.StatusSettled (Fulfilled "DEPLOYED");
   Services.StatusTick].

Definition sampleLoop : Services.Loop string :=
  Services.mkLoop (Services.mkState [sampleService] (Some "DEPLOYED") true)
                  false 0 ["0xA"] ["backend down"].

Definition sampleWallets : list WalletCtx.Wallet :=
  [WalletCtx.mkWallet (Some wallet3333)].

(** A network on which the second call of a refresh is rejected, the first
    is answered with 1.5 and every later one with 2.5. *)
Definition sampleGetEthBalance (index : nat) (_ : Address) (_ : string)
  : Settled float :=
  match index with
  | 0 => Fulfilled 1.5%float
  | 1 => Rejected "network error"
  | _ => Fulfilled 2.5%float
  end.

Definition sampleThreeWallets : list WalletCtx.Wallet :=
  [WalletCtx.mkWallet (Some wallet1111); WalletCtx.mkWallet (Some wallet2222);
   WalletCtx.mkWallet (Some wallet3333)].

(** * Properties *)

(** ** Objects built by a reduce that spreads and adds one computed key *)

Section InsertReduce.

Variable keys : list string.
Variable decode : Z -> float.

Local Abbreviation addEntry := (addEntry keys decode).

Lemma reduce_from_untouched (a : string) (resp : list Z) :
  forall (i : nat) (acc : gmap string float),
    (forall j, j < length resp -> key_at keys (i + j) <> a) ->
    reduce_from addEntry i resp acc !! a = acc !! a.
Proof.
  induction resp as [|raw resp IH]; intros i acc Hfree; simpl; [reflexivity|].
  rewrite IH.
  - unfold addEntry. apply lookup_insert_ne.
    specialize (Hfree 0). rewrite Nat.add_0_r in Hfree. apply Hfree. simpl. lia.
  - intros j Hj. replace (S i + j) with (i + S j) by lia.
    apply Hfree. simpl. lia.
Qed.

Lemma reduce_from_last (a : string) (resp : list Z) :
  forall (i j : nat) (acc : gmap string float) (raw : Z),
    resp !! j = Some raw ->
    key_at keys (i + j) = a ->
    (forall j', j < j' < length resp -> key_at keys (i + j') <> a) ->
    reduce_from addEntry i resp acc !! a = Some (decode raw).
Proof.
  induction resp as [|r0 resp IH]; intros i j acc raw Hj Hkey Hlast.
  - discriminate Hj.
  - destruct j as [|j]; simpl in *.
    + injection Hj as ->. rewrite Nat.add_0_r in Hkey.
      rewrite reduce_from_untouched.
      * unfold addEntry. rewrite Hkey. apply lookup_insert_eq.
      * intros j' Hj'. replace (S i + j') with (i + S j') by lia.
        apply Hlast. lia.
    + apply (IH (S i) j); [exact Hj | |].
      * replace (S i + j) with (i + S j) by lia. exact Hkey.
      * intros j' Hj'. replace (S i + j') with (i + S j') by lia.
        apply Hlast. lia.
Qed.

Lemma reduce_from_origin (a : string) (resp : list Z) :
  forall (i : nat) (acc : gmap string float) (v : float),
    reduce_from addEntry i resp acc !! a = Some v ->
    acc !! a = Some v \/
    exists j raw, resp !! j = Some raw /\ key_at keys (i + j) = a /\ v = decode raw.
Proof.
  induction resp as [|r0 resp IH]; intros i acc v Hv; simpl in Hv.
  - left. exact Hv.
  - destruct (IH _ _ _ Hv) as [Hacc | (j & raw & Hj & Hkey & ->)].
    + unfold addEntry in Hacc.
      destruct (decide (key_at keys i = a)) as [Heq | Hne].
      * right. exists 0, r0. rewrite Nat.add_0_r. split; [reflexivity|].
        split; [exact Heq|].
        rewrite Heq, lookup_insert_eq in Hacc. congruence.
      * left. rewrite lookup_insert_ne in Hacc by exact Hne. exact Hacc.
    + right. exists (S j), raw. split; [exact Hj|].
      replace (i + S j) with (S i + j) by lia. split; [exact Hkey | reflexivity].
Qed.

Lemma reduce_from_is_Some (a : string) (resp : list Z) :
  forall (i : nat) (acc : gmap string float),
    is_Some (reduce_from addEntry i resp acc !! a) <->
    is_Some (acc !! a) \/ exists j, j < length resp /\ key_at keys (i + j) = a.
Proof.
  induction resp as [|r0 resp IH]; intros i acc; simpl.
  - split; [auto | intros [H | (j & Hj & _)]; [exact H | lia]].
  - rewrite IH. unfold addEntry. rewrite lookup_insert_is_Some. split.
    + intros [[Heq | [_ Hacc]] | (j & Hj & Hkey)].
      * right. exists 0. rewrite Nat.add_0_r. split; [lia | exact Heq].
      * left. exact Hacc.
      * right. exists (S j). replace (i + S j) with (S i + j) by lia.
        split; [lia | exact Hkey].
    + intros [Hacc | (j & Hj & Hkey)].
      * left. destruct (decide (key_at keys i = a)); [left | right]; auto.
      * destruct j as [|j].
        -- left. left. rewrite Nat.add_0_r in Hkey. exact Hkey.
        -- right. exists j. replace (S i + j) with (i + S j) by lia.
           split; [lia | exact Hkey].
Qed.

Lemma key_at_lookup (i : nat) (a : string) :
  keys !! i = Some a -> key_at keys i = a.
Proof. unfold key_at. intros ->. reflexivity. Qed.

End InsertReduce.

(** ** service/Multicall.ts *)

Section MulticallFacts.

Variable MULTICALL_CONTRACT : Address.
Variable all : Multicall.Provider -> list Multicall.ContractCall -> Settled (list Z).
Variable formatEther : Z -> string.
Variable formatUnits : Z -> Z -> string.
Variable parseFloat : string -> float.

Local Abbreviation getEthBalances :=
  (Multicall.getEthBalances MULTICALL_CONTRACT all formatEther parseFloat).
Local Abbreviation getErc20Balances :=
  (Multicall.getErc20Balances MULTICALL_CONTRACT all formatUnits parseFloat).
Local Abbreviation ethCallData := (Multicall.ethCallData MULTICALL_CONTRACT).
Local Abbreviation erc20CallData := (Multicall.erc20CallData MULTICALL_CONTRACT).

Lemma reduce_entries_domain (addresses : list Address) (decode : Z -> float)
      (resp : list Z) (a : string) :
  length resp = length addresses ->
  (a ∈ addresses <->
   is_Some (reduce (addEntry addresses decode) resp ∅ !! a)).
Proof.
  intros Hlen. unfold reduce. rewrite reduce_from_is_Some.
  rewrite lookup_empty, is_Some_alt. split.
  - intros Hin. apply list_elem_of_lookup in Hin as [j Hj]. right.
    exists j. split.
    + rewrite Hlen. eapply lookup_lt_Some, Hj.
    + apply key_at_lookup. exact Hj.
  - intros [[] | (j & Hj & Hkey)].
    rewrite Hlen in Hj. apply lookup_lt_is_Some in Hj as [x Hx].
    simpl in Hkey. rewrite (key_at_lookup _ _ _ Hx) in Hkey. subst x.
    apply list_elem_of_lookup. exists j. exact Hx.
Qed.

(** C7: [getEthBalances] is all-or-nothing.  When the aggregate call
    rejects, the rejection is the whole result and carries no balances;
    when it answers with one value per call, the result is an object with
    an entry for every input address (and for nothing else). *)
Theorem getEthBalances_all_or_nothing (addresses : list Address) (rpc : string) :
  let provider := Multicall.mkProvider rpc (Some (100%Z, "Gnosis")) 100 in
  (forall e, all provider (ethCallData addresses) = Rejected e ->
             getEthBalances addresses rpc = Rejected e) /\
  (forall resp, all provider (ethCallData addresses) = Fulfilled resp ->
                length resp = length addresses ->
                exists m, getEthBalances addresses rpc = Fulfilled m /\
                          forall a, a ∈ addresses <-> is_Some (m !! a)).
Proof.
  intros provider. unfold Multicall.getEthBalances. fold provider. split.
  - intros e ->. reflexivity.
  - intros resp -> Hlen. simpl. eexists. split; [reflexivity|].
    intros a.
    apply (reduce_entries_domain addresses
             (fun raw => parseFloat (formatEther raw)) resp a Hlen).
Qed.

Lemma erc20CallData_lookup (addresses : list Address) (token : Address)
      (i : nat) (a : Address) :
  addresses !! i = Some a ->
  erc20CallData addresses token !! i =
  Some (Multicall.mkCall MULTICALL_CONTRACT "call"
          [Multicall.PStr token; Multicall.PStr "balanceOf(address):(uint256)";
           Multicall.PArr [a]]).
Proof.
  intros Hi. unfold Multicall.erc20CallData.
  rewrite list_lookup_fmap_Some. exists a. split; [reflexivity | exact Hi].
Qed.

(** C8: [getErc20Balances] sends a single aggregate whose call list has
    one [balanceOf(address):(uint256)] call per input address, aimed at
    the given token contract, and every amount in its result is
    [parseFloat(formatUnits(raw, 18))]: the scale is the constant 18,
    there is no decimals lookup. *)
Theorem getErc20Balances_balanceOf_scale_18
        (addresses : list Address) (rpc : string) (contractAddress : Address) :
  let provider := Multicall.mkProvider rpc None 100 in
  let callData := erc20CallData addresses contractAddress in
  length callData = length addresses /\
  (forall i a, addresses !! i = Some a ->
     callData !! i =
     Some (Multicall.mkCall MULTICALL_CONTRACT "call"
             [Multicall.PStr contractAddress;
              Multicall.PStr "balanceOf(address):(uint256)";
              Multicall.PArr [a]])) /\
  (forall e, all provider callData = Rejected e ->
             getErc20Balances addresses rpc contractAddress = Rejected e) /\
  (forall r, all provider callData = Fulfilled r ->
     exists m, getErc20Balances addresses rpc contractAddress = Fulfilled m /\
       (forall i a raw,
          addresses !! i = Some a -> r !! i = Some raw ->
          (forall j, i < j < length r -> key_at addresses j <> a) ->
          m !! a = Some (parseFloat (formatUnits raw 18))) /\
       (forall a v, m !! a = Some v ->
          exists i raw, r !! i = Some raw /\ key_at addresses i = a /\
                        v = parseFloat (formatUnits raw 18))).
Proof.
  intros provider callData. split; [| split; [| split]].
  - unfold callData, Multicall.erc20CallData. apply length_map.
  - intros i a Hi. apply erc20CallData_lookup. exact Hi.
  - intros e He. unfold Multicall.getErc20Balances.
    fold provider. fold callData. rewrite He. reflexivity.
  - intros r Hr. unfold Multicall.getErc20Balances.
    fold provider. fold callData. rewrite Hr. simpl.
    eexists. split; [reflexivity|]. split.
    + intros i a raw Ha Hraw Hlast. unfold reduce.
      apply (reduce_from_last addresses (fun raw => parseFloat (formatUnits raw 18))
               a r 0 i ∅ raw Hraw).
      * apply key_at_lookup. exact Ha.
      * intros j Hj. apply Hlast. exact Hj.
    + intros a v Hv. unfold reduce in Hv.
      apply (reduce_from_origin addresses
               (fun raw => parseFloat (formatUnits raw 18))) in Hv.
      destruct Hv as [Hempty | (j & raw & Hj & Hkey & ->)].
      * rewrite lookup_empty in Hempty. discriminate.
      * exists j, raw. auto.
Qed.

End MulticallFacts.

(** ** ServicesProvider: the derived address list *)

Section ServiceAddressFacts.

Variable isAddress : string -> bool.

Local Abbreviation valid := (fun v : Val => isAddress (template v)).

Lemma validInstances_from (l : list Address) :
  forall acc : list Address,
    fold_left
      (fun (acc : list Address) (instance : Address) =>
         if isAddress (template (Some instance)) then acc ++ [instance] else acc)
      l acc
    = acc ++ List.filter isAddress l.
Proof.
  induction l as [|x l IH]; intros acc; simpl.
  - symmetry. apply app_nil_r.
  - rewrite IH. destruct (isAddress x); [| reflexivity].
    rewrite <- app_assoc. reflexivity.
Qed.

Lemma validInstances_filter (instances : option (list Address)) :
  Services.validInstances isAddress instances
  = List.filter isAddress (default [] instances).
Proof. unfold Services.validInstances. apply validInstances_from. Qed.

Lemma filter_map_Some (l : list Address) :
  List.filter valid (map Some l) = map Some (List.filter isAddress l).
Proof.
  induction l as [|x l IH]; simpl; [reflexivity|].
  rewrite IH. destruct (isAddress x); reflexivity.
Qed.

Lemma collect_filter (acc : list Val) (s : Services.Service) :
  Services.collect isAddress acc s
  = acc ++ List.filter valid
             (map Some (default [] (Services.instances (Services.chain_data s)))
              ++ [Services.multisig (Services.chain_data s)]).
Proof.
  unfold Services.collect.
  rewrite validInstances_filter, List.filter_app, filter_map_Some. simpl.
  destruct (isAddress (template (Services.multisig (Services.chain_data s)))).
  - rewrite <- app_assoc. reflexivity.
  - rewrite app_nil_r. reflexivity.
Qed.

Lemma serviceAddresses_from (services : list Services.Service) :
  forall acc : list Val,
    fold_left (Services.collect isAddress) services acc
    = acc ++ validCandidates isAddress services.
Proof.
  unfold validCandidates.
  induction services as [|s services IH]; intros acc; simpl.
  - symmetry. apply app_nil_r.
  - rewrite IH, collect_filter, <- app_assoc. f_equal.
    symmetry. apply List.filter_app.
Qed.

(** C3, as the code has it: [serviceAddresses] is the list of instance and
    multisig values that pass [isAddress], in the order of the input and
    each as often as it occurs there; a value is in the result exactly when
    it is a candidate and valid.  Nothing collapses duplicates. *)
Theorem serviceAddresses_valid_candidates (services : list Services.Service) :
  Services.serviceAddresses isAddress services = validCandidates isAddress services /\
  (forall v, In v (Services.serviceAddresses isAddress services) <->
             In v (addressCandidates services) /\ isAddress (template v) = true) /\
  (forall v, count_occ Val_eq_dec
                       (Services.serviceAddresses isAddress services) v
             = if isAddress (template v)
               then count_occ Val_eq_dec (addressCandidates services) v
               else 0).
Proof.
  assert (Heq : Services.serviceAddresses isAddress services
                = validCandidates isAddress services).
  { unfold Services.serviceAddresses. rewrite serviceAddresses_from. reflexivity. }
  split; [exact Heq|]. rewrite Heq. unfold validCandidates. split.
  - intros v. apply List.filter_In.
  - intros v. induction (addressCandidates services) as [|c l IH]; simpl.
    + destruct (isAddress (template v)); reflexivity.
    + destruct (Val_eq_dec c v) as [-> | Hne].
      * destruct (isAddress (template v)) eqn:Hv; simpl.
        -- destruct (Val_eq_dec v v); [| congruence].
           rewrite IH. reflexivity.
        -- exact IH.
      * destruct (isAddress (template c)); simpl; [| exact IH].
        destruct (Val_eq_dec c v); [congruence | exact IH].
Qed.

End ServiceAddressFacts.

(** C3, as the spec has it, fails: an address that is both an instance and
    the multisig of a service is returned twice, so one distinct valid
    address yields two entries. *)
Lemma serviceAddresses_not_deduplicated :
  let services :=
    [Services.mkService "0xA"
       (Services.mkChainData (Some [wallet1111]) (Some wallet1111))] in
  Services.serviceAddresses digitAddress services = [Some wallet1111; Some wallet1111] /\
  ~ List.NoDup (Services.serviceAddresses digitAddress services).
Proof.
  split; [reflexivity|].
  intros H. change (List.NoDup [Some wallet1111; Some wallet1111]) in H.
  apply List.NoDup_cons_iff in H as [Hin _]. apply Hin. left. reflexivity.
Qed.

(** ** ServicesProvider: the refresh loops *)

Section ServicesLoopFacts.

Variable DeploymentStatus : Type.

Local Abbreviation Loop := (Services.Loop DeploymentStatus).
Local Abbreviation Event := (Services.Event DeploymentStatus).

Lemma loop_inv_mounted :
  loop_inv (DeploymentStatus := DeploymentStatus) [] Services.mounted.
Proof.
  split; simpl.
  - intros H. contradiction.
  - lia.
  - discriminate.
Qed.

Lemma existsb_snoc (history : list Event) (e : Event) :
  existsb Services.isInitialFulfilled (history ++ [e])
  = existsb Services.isInitialFulfilled history || Services.isInitialFulfilled e.
Proof. rewrite existsb_app. simpl. rewrite orb_false_r. reflexivity. Qed.

Lemma loop_inv_step (history : list Event) (l l' : Loop) (e : Event) :
  loop_inv history l ->
  Services.step l e = Some l' ->
  loop_inv (history ++ [e]) l'.
Proof.
  intros [Hs Hr Hl] Hstep.
  destruct e as [r | | r | | r]; simpl in Hstep.
  - (* the mount effect's request settles *)
    destruct (Services.initialPending l); [| discriminate].
    destruct r as [data | reason]; injection Hstep as <-;
      split; simpl; rewrite ?existsb_snoc; simpl; auto using orb_true_r.
    intros H. rewrite (Hl H). reflexivity.
  - (* the list interval fires *)
    unfold Services.listDelay in Hstep.
    destruct (Services.hasInitialLoaded (Services.state l)) eqn:Hloaded;
      [| discriminate].
    injection Hstep as <-.
    split; simpl; rewrite ?existsb_snoc; simpl; auto.
    intros _. rewrite (Hl eq_refl). reflexivity.
  - (* a list refresh settles *)
    destruct (Services.listInFlight l) as [|n] eqn:Hn; [discriminate|].
    assert (Hloaded : Services.hasInitialLoaded (Services.state l) = true)
      by (apply Hr; lia).
    destruct r as [data | msg]; injection Hstep as <-;
      split; simpl; rewrite ?existsb_snoc; simpl; auto;
      intros _; rewrite (Hl Hloaded); reflexivity.
  - (* the status interval fires *)
    destruct (Services.statusDelay (Services.state l)); [| discriminate].
    destruct (Services.services (Services.state l)) eqn:Hsv;
      injection Hstep as <-;
      split; simpl; rewrite ?existsb_snoc; simpl; rewrite ?Hsv; auto;
      intros H; rewrite (Hl H); reflexivity.
  - (* a status request settles *)
    destruct (Services.statusInFlight l) as [|h rest]; [discriminate|].
    destruct r as [status | reason]; injection Hstep as <-;
      split; simpl; rewrite ?existsb_snoc; simpl; auto;
      intros H; rewrite (Hl H); reflexivity.
Qed.

Lemma loop_inv_run (events : list Event) :
  forall (history : list Event) (l l' : Loop),
    loop_inv history l ->
    Services.run l events = Some l' ->
    loop_inv (history ++ events) l'.
Proof.
  induction events as [|e events IH]; intros history l l' Hinv Hrun; simpl in Hrun.
  - injection Hrun as <-. rewrite app_nil_r. exact Hinv.
  - destruct (Services.step l e) as [l1|] eqn:Hstep; [| discriminate].
    replace (history ++ e :: events) with ((history ++ [e]) ++ events)
      by (rewrite <- app_assoc; reflexivity).
    eapply IH; [| exact Hrun]. eapply loop_inv_step; eassumption.
Qed.

Lemma run_app (a b : list Event) :
  forall l : Loop,
    Services.run l (a ++ b)
    = match Services.run l a with
      | Some l' => Services.run l' b
      | None => None
      end.
Proof.
  induction a as [|e a IH]; intros l; simpl; [reflexivity|].
  destruct (Services.step l e); [apply IH | reflexivity].
Qed.

Lemma statusDelay_enabled (s : Services.State DeploymentStatus) :
  Services.statusDelay s <> None <-> Services.services s <> [].
Proof.
  unfold Services.statusDelay. destruct (Services.services s); simpl; split;
    congruence.
Qed.

(** C4: in every state the provider reaches, the status interval has a
    delay only if [hasInitialLoaded] is set and the service list is not
    empty; and whenever the status interval fires, the mount effect's list
    fetch has been fulfilled before. *)
Theorem status_poll_after_initial_load (events : list Event) (l : Loop) :
  Services.run Services.mounted events = Some l ->
  (Services.statusDelay (Services.state l) <> None ->
   Services.hasInitialLoaded (Services.state l) = true /\
   Services.services (Services.state l) <> []) /\
  (forall before after,
     events = before ++ Services.StatusTick :: after ->
     existsb Services.isInitialFulfilled before = true).
Proof.
  intros Hrun. split.
  - intros Hdelay. apply statusDelay_enabled in Hdelay.
    pose proof (loop_inv_run events [] _ _ loop_inv_mounted Hrun) as [Hs _ _].
    split; [apply Hs |]; exact Hdelay.
  - intros before after ->. rewrite run_app in Hrun.
    destruct (Services.run Services.mounted before) as [l0|] eqn:Hbefore;
      [| discriminate].
    pose proof (loop_inv_run before [] _ _ loop_inv_mounted Hbefore) as [Hs _ Hl].
    simpl in Hrun.
    destruct (Services.statusDelay (Services.state l0)) eqn:Hdelay; [| discriminate].
    apply Hl, Hs. apply statusDelay_enabled. rewrite Hdelay. discriminate.
Qed.

End ServicesLoopFacts.

(** ** WalletProvider: one refresh *)

Lemma pushIfPresent_from (l : list Val) :
  forall acc : list Address,
    fold_left WalletCtx.pushIfPresent l acc = acc ++ presentAddresses l.
Proof.
  induction l as [|v l IH]; intros acc; simpl.
  - symmetry. apply app_nil_r.
  - rewrite IH. unfold WalletCtx.pushIfPresent. simpl.
    destruct v as [[|c a]|]; simpl; try reflexivity.
    rewrite <- app_assoc. reflexivity.
Qed.

Lemma fold_left_wallets (ws : list WalletCtx.Wallet) :
  forall acc : list Address,
    fold_left (fun acc wallet => WalletCtx.pushIfPresent acc (WalletCtx.address wallet))
              ws acc
    = fold_left WalletCtx.pushIfPresent (map WalletCtx.address ws) acc.
Proof.
  induction ws as [|w ws IH]; intros acc; simpl; [reflexivity | apply IH].
Qed.

Lemma walletsToCheck_present (ws : list WalletCtx.Wallet) (serviceAddresses : list Val) :
  WalletCtx.walletsToCheck ws serviceAddresses
  = presentAddresses (map WalletCtx.address ws) ++ presentAddresses serviceAddresses.
Proof.
  unfold WalletCtx.walletsToCheck.
  rewrite pushIfPresent_from, fold_left_wallets, pushIfPresent_from. reflexivity.
Qed.

Lemma presentAddresses_In (l : list Val) (a : Address) :
  In a (presentAddresses l) <-> In (Some a) l /\ a <> EmptyString.
Proof.
  unfold presentAddresses. rewrite in_flat_map. split.
  - intros (v & Hv & Ha). destruct v as [b|]; [| contradiction].
    destruct b as [|c b]; simpl in Ha; [contradiction|].
    destruct Ha as [<- | []]. split; [exact Hv | discriminate].
  - intros [Hin Hne]. exists (Some a). split; [exact Hin|].
    destruct a; [congruence | left; reflexivity].
Qed.

Lemma sumFulfilled_from (settled : list (Settled float)) :
  forall acc : float,
    fold_left
      (fun (acc : float) promise =>
         match promise with
         | Fulfilled value => PrimFloat.add acc value
         | Rejected _ => acc
         end)
      settled acc
    = fold_left PrimFloat.add (fulfilledValues settled) acc.
Proof.
  induction settled as [|p settled IH]; intros acc; simpl; [reflexivity|].
  rewrite IH. destruct p; reflexivity.
Qed.

Lemma sumFulfilled_values (settled : list (Settled float)) :
  WalletCtx.sumFulfilled settled
  = fold_left PrimFloat.add (fulfilledValues settled) 0%float.
Proof. apply sumFulfilled_from. Qed.

Lemma fulfilledValues_app (l1 l2 : list (Settled float)) :
  fulfilledValues (l1 ++ l2) = fulfilledValues l1 ++ fulfilledValues l2.
Proof. unfold fulfilledValues. apply flat_map_app. Qed.

Lemma fulfilledValues_all_rejected (settled : list (Settled float)) :
  (forall p, In p settled -> exists e, p = Rejected e) ->
  fulfilledValues settled = [].
Proof.
  induction settled as [|p settled IH]; intros Hall; simpl; [reflexivity|].
  destruct (Hall p (or_introl eq_refl)) as [e ->]. simpl.
  apply IH. intros q Hq. apply Hall. right. exact Hq.
Qed.

Section RefreshFacts.

Variable GNOSIS_RPC : string.
Variable getEthBalance : nat -> Address -> string -> Settled float.

Local Abbreviation settledBalances :=
  (WalletCtx.settledBalances GNOSIS_RPC getEthBalance).
Local Abbreviation updateBalance :=
  (WalletCtx.updateBalance GNOSIS_RPC getEthBalance).

Lemma fulfilledValues_all_fulfilled (bal : Address -> float) (l : list Address) :
  forall g : nat -> Address -> Settled float,
    (forall i a, g i a = Fulfilled (bal a)) ->
    fulfilledValues (imap g l) = map bal l.
Proof.
  induction l as [|a l IH]; intros g Hg; simpl; [reflexivity|].
  rewrite Hg. simpl. f_equal. apply IH. intros i x. apply Hg.
Qed.

(** C1: a refresh asks [getEthBalance] once for every monitored address
    (the present wallet addresses, then the present service addresses) and,
    whatever mixture of fulfilled and rejected answers it gets, completes
    and publishes the sum of the values of the fulfilled answers alone: a
    rejected answer adds nothing, and when every answer is fulfilled the
    published balance is the sum of all of them. *)
Theorem updateBalance_sums_fulfilled_only
        (serviceAddresses : list Val) (s : WalletCtx.State) :
  let monitored :=
    presentAddresses (map WalletCtx.address (WalletCtx.wallets s))
    ++ presentAddresses serviceAddresses in
  let results :=
    imap (fun index address => getEthBalance index address GNOSIS_RPC) monitored in
  snd (updateBalance serviceAddresses s)
  = map (fun address => (address, GNOSIS_RPC)) monitored /\
  WalletCtx.balance (fst (updateBalance serviceAddresses s))
  = Some (fold_left PrimFloat.add (fulfilledValues results) 0%float) /\
  (forall before reason after,
     results = before ++ Rejected reason :: after ->
     WalletCtx.balance (fst (updateBalance serviceAddresses s))
     = Some (fold_left PrimFloat.add (fulfilledValues (before ++ after)) 0%float)) /\
  (forall bal : Address -> float,
     (forall index address,
        getEthBalance index address GNOSIS_RPC = Fulfilled (bal address)) ->
     WalletCtx.balance (fst (updateBalance serviceAddresses s))
     = Some (fold_left PrimFloat.add (map bal monitored) 0%float)).
Proof.
  intros monitored results.
  assert (Hbalance :
            WalletCtx.balance (fst (updateBalance serviceAddresses s))
            = Some (fold_left PrimFloat.add (fulfilledValues results) 0%float)).
  { unfold WalletCtx.updateBalance, WalletCtx.settledBalances. simpl.
    rewrite walletsToCheck_present, sumFulfilled_values. reflexivity. }
  split; [| split; [exact Hbalance | split]].
  - unfold WalletCtx.updateBalance, WalletCtx.requests. simpl.
    rewrite walletsToCheck_present. reflexivity.
  - intros before reason after Hresults. rewrite Hbalance, Hresults.
    rewrite !fulfilledValues_app. reflexivity.
  - intros bal Hall. rewrite Hbalance. unfold results.
    rewrite (fulfilledValues_all_fulfilled bal monitored) by exact Hall.
    reflexivity.
Qed.

(** C6, as the code has it: a refresh whose calls are all rejected still
    publishes; the balance becomes 0 whatever it was before. *)
Theorem updateBalance_all_rejected_publishes_zero
        (serviceAddresses : list Val) (s : WalletCtx.State) :
  (forall index address,
     exists reason, getEthBalance index address GNOSIS_RPC = Rejected reason) ->
  WalletCtx.balance (fst (updateBalance serviceAddresses s)) = Some 0%float.
Proof.
  intros Hdown. unfold WalletCtx.updateBalance. simpl.
  rewrite sumFulfilled_values, fulfilledValues_all_rejected; [reflexivity|].
  intros p Hp. unfold WalletCtx.settledBalances in Hp.
  apply list_elem_of_In, list_elem_of_lookup in Hp as [i Hi].
  rewrite list_lookup_imap in Hi.
  destruct (WalletCtx.walletsToCheck (WalletCtx.wallets s) serviceAddresses !! i)
    as [a|]; [| discriminate].
  simpl in Hi. injection Hi as <-. apply Hdown.
Qed.

Lemma fulfilledValues_imap_shared (a : Address) (v : float) (l1 l2 : list Address) :
  forall g : nat -> Address -> Settled float,
    (forall i, g i a = Fulfilled v) ->
    fulfilledValues (imap g (l1 ++ a :: l2))
    = fulfilledValues (imap g l1)
      ++ v :: fulfilledValues (imap (fun i x => g (S (length l1) + i) x) l2).
Proof.
  intros g Hg. rewrite imap_app, fulfilledValues_app. f_equal.
  simpl. rewrite Hg. simpl. f_equal. f_equal.
  apply imap_ext. intros i x _. simpl. f_equal. lia.
Qed.

(** C10: an address held by a wallet that is also among the service
    addresses is asked for twice in one refresh, once in the wallets' part
    of the list and once in the services' part, and when the network
    answers it with [v] both answers are added: the published balance is
    the sum, in order, of the fulfilled answers for the addresses before
    it, [v], those for the addresses in between, [v] again, and those for
    the addresses after it.  When it is the only monitored address the
    balance is [(0 + v) + v]. *)
Theorem updateBalance_counts_shared_address_twice
        (serviceAddresses : list Val) (s : WalletCtx.State)
        (a : Address) (v : float) :
  a <> EmptyString ->
  In (Some a) (map WalletCtx.address (WalletCtx.wallets s)) ->
  In (Some a) serviceAddresses ->
  (forall index, getEthBalance index a GNOSIS_RPC = Fulfilled v) ->
  (exists w1 w2 s1 s2,
     presentAddresses (map WalletCtx.address (WalletCtx.wallets s)) = w1 ++ a :: w2 /\
     presentAddresses serviceAddresses = s1 ++ a :: s2) /\
  (forall w1 w2 s1 s2,
     presentAddresses (map WalletCtx.address (WalletCtx.wallets s)) = w1 ++ a :: w2 ->
     presentAddresses serviceAddresses = s1 ++ a :: s2 ->
     snd (updateBalance serviceAddresses s)
     = map (fun x => (x, GNOSIS_RPC)) w1 ++ (a, GNOSIS_RPC)
       :: map (fun x => (x, GNOSIS_RPC)) (w2 ++ s1) ++ (a, GNOSIS_RPC)
       :: map (fun x => (x, GNOSIS_RPC)) s2 /\
     WalletCtx.balance (fst (updateBalance serviceAddresses s))
     = Some (fold_left PrimFloat.add
               (fulfilledValues
                  (imap (fun i x => getEthBalance i x GNOSIS_RPC) w1)
                ++ v
                :: fulfilledValues
                     (imap (fun i x => getEthBalance (S (length w1) + i) x GNOSIS_RPC)
                           (w2 ++ s1))
                ++ v
                :: fulfilledValues
                     (imap (fun i x =>
                              getEthBalance
                                (S (length w1) + (S (length (w2 ++ s1)) + i)) x
                                GNOSIS_RPC)
                           s2))
               0%float)) /\
  (presentAddresses (map WalletCtx.address (WalletCtx.wallets s)) = [a] ->
   presentAddresses serviceAddresses = [a] ->
   WalletCtx.balance (fst (updateBalance serviceAddresses s))
   = Some (PrimFloat.add (PrimFloat.add 0%float v) v)).
Proof.
  intros Hne Hw Hs Hv.
  assert (Hgeneral :
            forall w1 w2 s1 s2,
              presentAddresses (map WalletCtx.address (WalletCtx.wallets s))
              = w1 ++ a :: w2 ->
              presentAddresses serviceAddresses = s1 ++ a :: s2 ->
              snd (updateBalance serviceAddresses s)
              = map (fun x => (x, GNOSIS_RPC)) w1 ++ (a, GNOSIS_RPC)
                :: map (fun x => (x, GNOSIS_RPC)) (w2 ++ s1) ++ (a, GNOSIS_RPC)
                :: map (fun x => (x, GNOSIS_RPC)) s2 /\
              WalletCtx.balance (fst (updateBalance serviceAddresses s))
              = Some (fold_left PrimFloat.add
                        (fulfilledValues
                           (imap (fun i x => getEthBalance i x GNOSIS_RPC) w1)
                         ++ v
                         :: fulfilledValues
                              (imap (fun i x =>
                                       getEthBalance (S (length w1) + i) x GNOSIS_RPC)
                                    (w2 ++ s1))
                         ++ v
                         :: fulfilledValues
                              (imap (fun i x =>
                                       getEthBalance
                                         (S (length w1) + (S (length (w2 ++ s1)) + i))
                                         x GNOSIS_RPC)
                                    s2))
                        0%float)).
  { intros w1 w2 s1 s2 Hw12 Hs12.
    assert (Hlist : WalletCtx.walletsToCheck (WalletCtx.wallets s) serviceAddresses
                    = w1 ++ a :: (w2 ++ s1) ++ a :: s2).
    { rewrite walletsToCheck_present, Hw12, Hs12.
      rewrite <- !app_assoc. reflexivity. }
    unfold WalletCtx.updateBalance. simpl. rewrite Hlist. split.
    - unfold WalletCtx.requests. rewrite map_app. simpl. rewrite map_app.
      reflexivity.
    - rewrite sumFulfilled_values. unfold WalletCtx.settledBalances.
      rewrite (fulfilledValues_imap_shared a v w1 _ _ Hv).
      rewrite (fulfilledValues_imap_shared a v (w2 ++ s1) s2
                 (fun i x => getEthBalance (S (length w1) + i) x GNOSIS_RPC))
        by (intros i; apply Hv).
      reflexivity. }
  split; [| split; [exact Hgeneral |]].
  - assert (Hw' : In a (presentAddresses
                          (map WalletCtx.address (WalletCtx.wallets s))))
      by (apply presentAddresses_In; auto).
    assert (Hs' : In a (presentAddresses serviceAddresses))
      by (apply presentAddresses_In; auto).
    apply in_split in Hw' as (w1 & w2 & Hw').
    apply in_split in Hs' as (s1 & s2 & Hs').
    exists w1, w2, s1, s2. split; assumption.
  - intros Hwonly Hsonly.
    destruct (Hgeneral [] [] [] [] Hwonly Hsonly) as [_ Hbalance].
    rewrite Hbalance. reflexivity.
Qed.

End RefreshFacts.

(** C6, as the spec has it, fails: with 4.0 published and the endpoint
    unreachable, the next refresh replaces the balance by 0. *)
Lemma updateBalance_failure_overwrites_balance :
  let s := WalletCtx.mkState [WalletCtx.mkWallet (Some wallet1111)] (Some 4%float) in
  let s' := fst (WalletCtx.updateBalance sampleRpc
                   (fun _ _ _ => Rejected "network error") [] s) in
  WalletCtx.balance s' = Some 0%float /\
  WalletCtx.balance s' <> WalletCtx.balance s.
Proof.
  split; [reflexivity|].
  intros H. vm_compute in H.
  apply (f_equal (fun b => match b with
                           | Some x => PrimFloat.eqb x 0%float
                           | None => false
                           end)) in H.
  vm_compute in H. discriminate H.
Qed.

(** C9 at the failing input: a wallet whose address is not address-shaped
    is put on the list and asked for, although [isAddress] rejects it. *)
Lemma updateBalance_queries_unvalidated_wallet :
  let ws := [WalletCtx.mkWallet (Some "not-an-address")] in
  WalletCtx.walletsToCheck ws [] = ["not-an-address"] /\
  snd (WalletCtx.updateBalance sampleRpc
         (fun _ _ _ => Rejected "invalid address") [] (WalletCtx.mkState ws None))
  = [("not-an-address", sampleRpc)] /\
  digitAddress "not-an-address" = false.
Proof. repeat split. Qed.

(** ** WalletProvider: the poller in time *)

Lemma fires_iff (d t : nat) :
  Interval.fires (Some d) t = true <-> 0 < t /\ t mod d = 0.
Proof.
  unfold Interval.fires. rewrite andb_true_iff, Nat.ltb_lt, Nat.eqb_eq. reflexivity.
Qed.

Lemma fires_disabled (t : nat) : Interval.fires None t = false.
Proof. reflexivity. Qed.

Lemma next_multiple (d a t : nat) :
  0 < d -> a mod d = 0 -> t mod d = 0 -> a < t -> t <= a + d -> t = a + d.
Proof.
  intros Hd Ha Ht Hlt Hle.
  apply Nat.Div0.mod_divides in Ha as [ka ->].
  apply Nat.Div0.mod_divides in Ht as [kt ->].
  assert (kt = S ka) by nia. subst kt. lia.
Qed.

Lemma multiple_plus (d a : nat) : a mod d = 0 -> (a + d) mod d = 0.
Proof.
  intros Ha. rewrite <- Nat.Div0.add_mod_idemp_l, Ha. simpl.
  apply Nat.Div0.mod_same.
Qed.

Lemma publish_wallets (finished : list WalletCtx.Cycle) :
  forall s : WalletCtx.State,
    WalletCtx.wallets (fold_left WalletCtx.publish finished s) = WalletCtx.wallets s.
Proof.
  induction finished as [|c finished IH]; intros s; simpl; [reflexivity|].
  rewrite IH. reflexivity.
Qed.

Lemma balanceDelay_wallets (s s' : WalletCtx.State) :
  WalletCtx.wallets s' = WalletCtx.wallets s ->
  WalletCtx.balanceDelay s' = WalletCtx.balanceDelay s.
Proof. unfold WalletCtx.balanceDelay. intros ->. reflexivity. Qed.

Lemma balanceDelay_cases (s : WalletCtx.State) :
  (WalletCtx.wallets s = [] /\ WalletCtx.balanceDelay s = None) \/
  (WalletCtx.wallets s <> [] /\ WalletCtx.balanceDelay s = Some 5000).
Proof.
  unfold WalletCtx.balanceDelay. destruct (WalletCtx.wallets s); simpl;
    [left | right]; split; congruence.
Qed.

Section PollerFacts.

Variable GNOSIS_RPC : string.
Variable serviceAddresses : list Val.
Variable getEthBalanceAt : nat -> nat -> Address -> string -> Settled float.
Variable latency : nat -> nat.

Local Abbreviation tick :=
  (WalletCtx.tick GNOSIS_RPC serviceAddresses getEthBalanceAt latency).
Local Abbreviation after :=
  (WalletCtx.after GNOSIS_RPC serviceAddresses getEthBalanceAt latency).

Lemma tick_now (p : WalletCtx.Poller) : WalletCtx.now (tick p) = S (WalletCtx.now p).
Proof.
  unfold WalletCtx.tick.
  destruct (Interval.fires _ _); reflexivity.
Qed.

Lemma tick_wallets (p : WalletCtx.Poller) :
  WalletCtx.wallets (WalletCtx.state (tick p))
  = WalletCtx.wallets (WalletCtx.state p).
Proof.
  unfold WalletCtx.tick.
  destruct (Interval.fires _ _); simpl; apply publish_wallets.
Qed.

Lemma after_wallets (n : nat) (p : WalletCtx.Poller) :
  WalletCtx.wallets (WalletCtx.state (after n p))
  = WalletCtx.wallets (WalletCtx.state p).
Proof.
  induction n as [|n IH]; simpl; [reflexivity|].
  rewrite tick_wallets. exact IH.
Qed.

Lemma after_now (n : nat) (p : WalletCtx.Poller) :
  WalletCtx.now (after n p) = n + WalletCtx.now p.
Proof.
  induction n as [|n IH]; simpl; [reflexivity|].
  rewrite tick_now, IH. reflexivity.
Qed.

Lemma tick_rpcLog_idle (p : WalletCtx.Poller) :
  WalletCtx.walletsToCheck (WalletCtx.wallets (WalletCtx.state p)) serviceAddresses = [] ->
  WalletCtx.rpcLog (tick p) = WalletCtx.rpcLog p.
Proof.
  intros Hempty. unfold WalletCtx.tick.
  destruct (Interval.fires _ _); simpl; [| reflexivity].
  rewrite publish_wallets, Hempty. simpl. apply app_nil_r.
Qed.

(** C5, as the code has it: the interval is off exactly when the wallet
    list is empty (the service addresses play no part in it), and as long
    as there is no address to check the poller never sends a request,
    whether its interval is running or not. *)
Theorem balance_poller_idle
        (ws : list WalletCtx.Wallet) (b : option float) :
  (WalletCtx.balanceDelay (WalletCtx.mkState ws b) = None <-> ws = []) /\
  (WalletCtx.walletsToCheck ws serviceAddresses = [] ->
   forall n, WalletCtx.rpcLog (after n (WalletCtx.start ws b)) = []).
Proof.
  split.
  - unfold WalletCtx.balanceDelay. destruct ws; simpl; split; congruence.
  - intros Hempty n. induction n as [|n IH]; simpl; [reflexivity|].
    rewrite tick_rpcLog_idle; [exact IH|].
    rewrite after_wallets. simpl. exact Hempty.
Qed.

Local Arguments Interval.fires : simpl never.
Local Arguments Nat.modulo : simpl never.

Lemma tick_single_flight (p : WalletCtx.Poller) :
  (forall t, latency t < 5000) ->
  (WalletCtx.inFlight p = [] \/
   exists c, WalletCtx.inFlight p = [c] /\
             WalletCtx.started c mod 5000 = 0 /\
             WalletCtx.started c <= WalletCtx.now p < WalletCtx.started c + 5000 /\
             WalletCtx.settlesAt c < WalletCtx.started c + 5000 /\
             WalletCtx.balanceDelay (WalletCtx.state p) = Some 5000) ->
  (WalletCtx.inFlight (tick p) = [] \/
   exists c, WalletCtx.inFlight (tick p) = [c] /\
             WalletCtx.started c mod 5000 = 0 /\
             WalletCtx.started c <= WalletCtx.now (tick p) < WalletCtx.started c + 5000 /\
             WalletCtx.settlesAt c < WalletCtx.started c + 5000 /\
             WalletCtx.balanceDelay (WalletCtx.state (tick p)) = Some 5000).
Proof.
  intros Hlat Hinv.
  assert (Hdelay : forall finished,
             WalletCtx.balanceDelay (fold_left WalletCtx.publish finished (WalletCtx.state p))
             = WalletCtx.balanceDelay (WalletCtx.state p))
    by (intros finished; apply balanceDelay_wallets, publish_wallets).
  unfold WalletCtx.tick. rewrite Hdelay.
  destruct Hinv as [Hnone | (c & Hone & Hmod & Hnow & Hsettle & Hon)].
  - rewrite Hnone. simpl.
    destruct (Interval.fires _ _) eqn:Hf; simpl; [| left; reflexivity].
    right. eexists. split; [reflexivity|]. simpl.
    destruct (balanceDelay_cases (WalletCtx.state p)) as [[_ Hd] | [_ Hd]];
      rewrite Hd in Hf; [discriminate|].
    apply fires_iff in Hf as [_ Hf].
    specialize (Hlat (S (WalletCtx.now p))).
    repeat split; [exact Hf | lia | lia | lia | exact Hd].
  - rewrite Hone, Hon. simpl.
    destruct (Interval.fires _ _) eqn:Hf.
    + apply fires_iff in Hf as [_ Hf].
      assert (Ht : S (WalletCtx.now p) = WalletCtx.started c + 5000)
        by (apply next_multiple; [lia | exact Hmod | exact Hf | lia | lia]).
      assert (Hdone : (WalletCtx.settlesAt c <=? S (WalletCtx.now p)) = true)
        by (apply Nat.leb_le; lia).
      rewrite Hdone. simpl. right. eexists. split; [reflexivity|]. simpl.
      specialize (Hlat (S (WalletCtx.now p))).
      repeat split; [exact Hf | lia | lia | lia |].
      rewrite <- Hon. apply balanceDelay_wallets. reflexivity.
    + destruct (WalletCtx.settlesAt c <=? S (WalletCtx.now p)); simpl;
        [left; reflexivity|].
      right. exists c. split; [reflexivity|].
      assert (Hnext : S (WalletCtx.now p) <> WalletCtx.started c + 5000).
      { intros Heq.
        assert (Hfire : Interval.fires (Some 5000) (S (WalletCtx.now p)) = true).
        { apply fires_iff. split; [lia|]. rewrite Heq. apply multiple_plus, Hmod. }
        congruence. }
      repeat split; [exact Hmod | lia | lia | exact Hsettle | exact Hon].
Qed.

(** C2, as the code has it: as long as every refresh has its answers in
    less than the 5000 ms between two firings, at most one refresh is
    waiting for the network at any time. *)
Theorem balance_refreshes_sequential_when_fast
        (ws : list WalletCtx.Wallet) (b : option float) (n : nat) :
  (forall t, latency t < 5000) ->
  length (WalletCtx.inFlight (after n (WalletCtx.start ws b))) <= 1.
Proof.
  intros Hlat.
  assert (Hinv :
            WalletCtx.inFlight (after n (WalletCtx.start ws b)) = [] \/
            exists c, WalletCtx.inFlight (after n (WalletCtx.start ws b)) = [c] /\
                      WalletCtx.started c mod 5000 = 0 /\
                      WalletCtx.started c <= WalletCtx.now (after n (WalletCtx.start ws b))
                        < WalletCtx.started c + 5000 /\
                      WalletCtx.settlesAt c < WalletCtx.started c + 5000 /\
                      WalletCtx.balanceDelay
                        (WalletCtx.state (after n (WalletCtx.start ws b))) = Some 5000).
  { induction n as [|n IH]; simpl.
    - left. reflexivity.
    - apply tick_single_flight; assumption. }
  destruct Hinv as [-> | (c & -> & _)]; simpl; lia.
Qed.

End PollerFacts.

(** C5, as the spec has it, fails: one wallet record without an address
    leaves nothing to check, and the interval is on all the same. *)
Lemma balance_interval_on_without_addresses :
  let ws := [WalletCtx.mkWallet (Some EmptyString)] in
  WalletCtx.walletsToCheck ws [] = [] /\
  WalletCtx.balanceDelay (WalletCtx.mkState ws None) = Some 5000.
Proof. split; reflexivity. Qed.

(** C2, as the spec has it, fails: when the answers take 6000 ms, the
    refresh started at 5000 ms is still waiting when the one at 10000 ms
    starts. *)
Lemma balance_refreshes_overlap_when_slow :
  let p := WalletCtx.after sampleRpc []
             (fun _ _ _ _ => Fulfilled 1.5%float) (fun _ => 6000) 10000
             (WalletCtx.start [WalletCtx.mkWallet (Some wallet1111)] None) in
  map (fun c => (WalletCtx.started c, WalletCtx.settlesAt c)) (WalletCtx.inFlight p)
  = [(5000, 11000); (10000, 16000)].
Proof. vm_compute. reflexivity. Qed.

(** ** The properties at sample inputs *)

Lemma getEthBalances_all_or_nothing_witness :
  exists m,
    Multicall.getEthBalances sampleMulticall sampleAll sampleFormatEther
      sampleParseFloat [wallet1111; wallet2222] sampleRpc = Fulfilled m /\
    forall a, a ∈ [wallet1111; wallet2222] <-> is_Some (m !! a).
Proof.
  apply (proj2 (getEthBalances_all_or_nothing sampleMulticall sampleAll
                  sampleFormatEther sampleParseFloat
                  [wallet1111; wallet2222] sampleRpc)
               [1000000000000000000%Z; 1000000000000000000%Z]);
    reflexivity.
Defined.

Lemma getErc20Balances_balanceOf_scale_18_witness :
  exists m,
    Multicall.getErc20Balances sampleMulticall sampleAll sampleFormatUnits
      sampleParseFloat [wallet1111; wallet2222] sampleRpc wallet3333 = Fulfilled m /\
    (forall i a raw,
       [wallet1111; wallet2222] !! i = Some a ->
       [1000000000000000000%Z; 1000000000000000000%Z] !! i = Some raw ->
       (forall j, i < j < 2 -> key_at [wallet1111; wallet2222] j <> a) ->
       m !! a = Some (sampleParseFloat (sampleFormatUnits raw 18))) /\
    (forall a v, m !! a = Some v ->
       exists i raw,
         [1000000000000000000%Z; 1000000000000000000%Z] !! i = Some raw /\
         key_at [wallet1111; wallet2222] i = a /\
         v = sampleParseFloat (sampleFormatUnits raw 18)).
Proof.
  apply (proj2 (proj2 (proj2
           (getErc20Balances_balanceOf_scale_18 sampleMulticall sampleAll
              sampleFormatUnits sampleParseFloat
              [wallet1111; wallet2222] sampleRpc wallet3333)))
           [1000000000000000000%Z; 1000000000000000000%Z]).
  reflexivity.
Defined.

Lemma status_poll_after_initial_load_witness :
  let events :=
    [Services.InitialSettled (DeploymentStatus := string) (Fulfilled [sampleService]);
     Services.StatusTick] in
  let l :=
    Services.mkLoop (DeploymentStatus := string)
      (Services.mkState [sampleService] None true) false 0 ["0xA"] [] in
  (Services.statusDelay (Services.state l) <> None ->
   Services.hasInitialLoaded (Services.state l) = true /\
   Services.services (Services.state l) <> []) /\
  (forall before after,
     events = before ++ Services.StatusTick :: after ->
     existsb Services.isInitialFulfilled before = true).
Proof.
  apply (status_poll_after_initial_load string
           [Services.InitialSettled (Fulfilled [sampleService]); Services.StatusTick]
           (Services.mkLoop (Services.mkState [sampleService] None true)
                            false 0 ["0xA"] [])).
  reflexivity.
Defined.

Lemma updateBalance_all_rejected_publishes_zero_witness :
  WalletCtx.balance
    (fst (WalletCtx.updateBalance sampleRpc (fun _ _ _ => Rejected "network error")
            [Some wallet2222]
            (WalletCtx.mkState [WalletCtx.mkWallet (Some wallet1111)] (Some 4%float))))
  = Some 0%float.
Proof.
  apply (updateBalance_all_rejected_publishes_zero sampleRpc
           (fun _ _ _ => Rejected "network error")).
  intros index address. exists "network error". reflexivity.
Defined.

Lemma updateBalance_counts_shared_address_twice_witness :
  WalletCtx.balance
    (fst (WalletCtx.updateBalance sampleRpc (fun _ _ _ => Fulfilled 1.5%float)
            [Some wallet1111]
            (WalletCtx.mkState [WalletCtx.mkWallet (Some wallet1111)] None)))
  = Some (PrimFloat.add (PrimFloat.add 0%float 1.5%float) 1.5%float).
Proof.
  apply (proj2 (proj2
           (updateBalance_counts_shared_address_twice sampleRpc
              (fun _ _ _ => Fulfilled 1.5%float) [Some wallet1111]
              (WalletCtx.mkState [WalletCtx.mkWallet (Some wallet1111)] None)
              wallet1111 1.5%float
              ltac:(discriminate)
              ltac:(simpl; left; reflexivity)
              ltac:(simpl; left; reflexivity)
              ltac:(intros index; reflexivity))));
    reflexivity.
Defined.

Lemma updateBalance_sums_fulfilled_only_witness :
  WalletCtx.balance
    (fst (WalletCtx.updateBalance sampleRpc sampleGetEthBalance []
            (WalletCtx.mkState sampleThreeWallets None)))
  = Some (fold_left PrimFloat.add
            (fulfilledValues ([Fulfilled 1.5%float] ++ [Fulfilled 2.5%float]))
            0%float).
Proof.
  apply (proj1 (proj2 (proj2
           (updateBalance_sums_fulfilled_only sampleRpc sampleGetEthBalance []
              (WalletCtx.mkState sampleThreeWallets None))))
           [Fulfilled 1.5%float] "network error" [Fulfilled 2.5%float]).
  reflexivity.
Defined.

Lemma balance_poller_idle_witness :
  WalletCtx.rpcLog
    (WalletCtx.after sampleRpc [] (fun _ _ _ _ => Fulfilled 1.5%float) (fun _ => 100)
       6000 (WalletCtx.start [WalletCtx.mkWallet (Some EmptyString)] None))
  = [].
Proof.
  apply (proj2 (balance_poller_idle sampleRpc [] (fun _ _ _ _ => Fulfilled 1.5%float)
                  (fun _ => 100) [WalletCtx.mkWallet (Some EmptyString)] None)).
  reflexivity.
Defined.

Lemma balance_refreshes_sequential_when_fast_witness :
  length
    (WalletCtx.inFlight
       (WalletCtx.after sampleRpc [] (fun _ _ _ _ => Fulfilled 1.5%float)
          (fun _ => 100) 5050
          (WalletCtx.start [WalletCtx.mkWallet (Some wallet1111)] None)))
  <= 1.
Proof.
  apply (balance_refreshes_sequential_when_fast sampleRpc []
           (fun _ _ _ _ => Fulfilled 1.5%float) (fun _ => 100)).
  intros t. apply Nat.ltb_lt. vm_compute. reflexivity.
Defined.

(** * Further properties *)

(** ** service/Multicall.ts *)

Section MulticallMore.

Variable MULTICALL_CONTRACT : Address.
Variable formatEther : Z -> string.
Variable formatUnits : Z -> Z -> string.
Variable parseFloat : string -> float.

(** X1: both balance readers talk to chain 100 at the given endpoint and
    nowhere else: two aggregators that agree on every provider with chain
    id 100 and that url give the same results. *)
Theorem balances_only_ask_chain_100
        (all1 all2 : Multicall.Provider -> list Multicall.ContractCall -> Settled (list Z))
        (addresses : list Address) (rpc : string) (contractAddress : Address) :
  (forall p calls,
     Multicall.chainId p = 100%Z -> Multicall.url p = rpc ->
     all1 p calls = all2 p calls) ->
  Multicall.getEthBalances MULTICALL_CONTRACT all1 formatEther parseFloat addresses rpc
  = Multicall.getEthBalances MULTICALL_CONTRACT all2 formatEther parseFloat addresses rpc
  /\
  Multicall.getErc20Balances MULTICALL_CONTRACT all1 formatUnits parseFloat
    addresses rpc contractAddress
  = Multicall.getErc20Balances MULTICALL_CONTRACT all2 formatUnits parseFloat
      addresses rpc contractAddress.
Proof.
  intros Hsame. unfold Multicall.getEthBalances, Multicall.getErc20Balances.
  split; rewrite Hsame; reflexivity.
Qed.

Variable all : Multicall.Provider -> list Multicall.ContractCall -> Settled (list Z).

Local Abbreviation getEthBalances :=
  (Multicall.getEthBalances MULTICALL_CONTRACT all formatEther parseFloat).
Local Abbreviation ethCallData := (Multicall.ethCallData MULTICALL_CONTRACT).
Local Abbreviation ethProvider :=
  (fun rpc => Multicall.mkProvider rpc (Some (100%Z, "Gnosis")) 100).

Lemma getEthBalances_fulfilled (addresses : list Address) (rpc : string)
      (resp : list Z) :
  all (ethProvider rpc) (ethCallData addresses) = Fulfilled resp ->
  getEthBalances addresses rpc
  = Fulfilled (reduce (addEntry addresses (fun raw => parseFloat (formatEther raw)))
                      resp ∅).
Proof. intros H. unfold Multicall.getEthBalances. rewrite H. reflexivity. Qed.

(** X2: when the aggregate answers with fewer values than there were
    addresses, [getEthBalances] still succeeds; exactly the addresses among
    the first [length resp] get an entry and the others are missing. *)
Theorem getEthBalances_short_response
        (addresses : list Address) (rpc : string) (resp : list Z) :
  all (ethProvider rpc) (ethCallData addresses) = Fulfilled resp ->
  length resp <= length addresses ->
  exists m, getEthBalances addresses rpc = Fulfilled m /\
            forall a, is_Some (m !! a) <-> a ∈ take (length resp) addresses.
Proof.
  intros Hall Hlen. rewrite (getEthBalances_fulfilled _ _ _ Hall).
  eexists. split; [reflexivity|]. intros a. unfold reduce.
  rewrite reduce_from_is_Some, lookup_empty, is_Some_alt. split.
  - intros [[] | (j & Hj & Hkey)]. simpl in Hkey.
    assert (Hlt : j < length addresses) by lia.
    apply lookup_lt_is_Some in Hlt as [x Hx].
    rewrite (key_at_lookup _ _ _ Hx) in Hkey. subst x.
    apply list_elem_of_lookup. exists j.
    rewrite lookup_take_lt by exact Hj. exact Hx.
  - intros Hin. apply list_elem_of_lookup in Hin as [j Hj]. right.
    apply lookup_take_Some in Hj as [Hj Hlt].
    exists j. split; [exact Hlt|]. simpl. apply key_at_lookup. exact Hj.
Qed.

(** X3: when the aggregate answers with more values than there were
    addresses, the surplus is stored under the key "undefined", which ends
    up holding the last value of the response. *)
Theorem getEthBalances_long_response
        (addresses : list Address) (rpc : string) (resp : list Z) (final : Z) :
  all (ethProvider rpc) (ethCallData addresses) = Fulfilled (resp ++ [final]) ->
  length addresses <= length resp ->
  exists m, getEthBalances addresses rpc = Fulfilled m /\
            m !! "undefined" = Some (parseFloat (formatEther final)).
Proof.
  intros Hall Hlen. rewrite (getEthBalances_fulfilled _ _ _ Hall).
  eexists. split; [reflexivity|]. unfold reduce.
  apply (reduce_from_last addresses (fun raw => parseFloat (formatEther raw))
           "undefined" (resp ++ [final]) 0 (length resp) ∅ final).
  - rewrite lookup_app_r by lia. rewrite Nat.sub_diag. reflexivity.
  - simpl. unfold key_at. rewrite lookup_ge_None_2 by exact Hlen. reflexivity.
  - intros j Hj. rewrite length_app in Hj. simpl in Hj. lia.
Qed.

(** X4: looking an address up in the result of [getEthBalances] gives the
    decoded value at its last position in the input, and every value in
    the result comes from some position of the response. *)
Theorem getEthBalances_lookup
        (addresses : list Address) (rpc : string) (resp : list Z) :
  all (ethProvider rpc) (ethCallData addresses) = Fulfilled resp ->
  exists m, getEthBalances addresses rpc = Fulfilled m /\
    (forall i a raw,
       addresses !! i = Some a -> resp !! i = Some raw ->
       (forall j, i < j < length resp -> key_at addresses j <> a) ->
       m !! a = Some (parseFloat (formatEther raw))) /\
    (forall a v, m !! a = Some v ->
       exists i raw, resp !! i = Some raw /\ key_at addresses i = a /\
                     v = parseFloat (formatEther raw)).
Proof.
  intros Hall. rewrite (getEthBalances_fulfilled _ _ _ Hall).
  eexists. split; [reflexivity|]. unfold reduce. split.
  - intros i a raw Ha Hraw Hlast.
    apply (reduce_from_last addresses (fun raw => parseFloat (formatEther raw))
             a resp 0 i ∅ raw Hraw).
    + apply key_at_lookup. exact Ha.
    + intros j Hj. apply Hlast. exact Hj.
  - intros a v Hv.
    apply (reduce_from_origin addresses (fun raw => parseFloat (formatEther raw)))
      in Hv.
    destruct Hv as [Hempty | (j & raw & Hj & Hkey & ->)].
    + rewrite lookup_empty in Hempty. discriminate.
    + exists j, raw. auto.
Qed.

(** X5: for pairwise different addresses and one value per address the
    result has exactly as many entries as there were addresses. *)
Theorem getEthBalances_size
        (addresses : list Address) (rpc : string) (resp : list Z) :
  all (ethProvider rpc) (ethCallData addresses) = Fulfilled resp ->
  length resp = length addresses ->
  NoDup addresses ->
  exists m, getEthBalances addresses rpc = Fulfilled m /\
            size m = length addresses.
Proof.
  intros Hall Hlen Hnodup. rewrite (getEthBalances_fulfilled _ _ _ Hall).
  eexists. split; [reflexivity|].
  set (m := reduce _ resp ∅).
  assert (Hdom : dom m = list_to_set addresses).
  { apply set_eq. intros a. rewrite elem_of_dom, elem_of_list_to_set.
    symmetry. apply reduce_entries_domain. exact Hlen. }
  rewrite <- size_dom, Hdom. apply size_list_to_set. exact Hnodup.
Qed.

End MulticallMore.

(** ** ServicesProvider: the derived address list *)

Section ServiceAddressMore.

Variable isAddress : string -> bool.

Lemma validCandidates_app (s1 s2 : list Services.Service) :
  validCandidates isAddress (s1 ++ s2)
  = validCandidates isAddress s1 ++ validCandidates isAddress s2.
Proof.
  unfold validCandidates, addressCandidates.
  rewrite flat_map_app, List.filter_app. reflexivity.
Qed.

Lemma serviceAddresses_is_validCandidates (services : list Services.Service) :
  Services.serviceAddresses isAddress services = validCandidates isAddress services.
Proof. unfold Services.serviceAddresses. rewrite serviceAddresses_from. reflexivity. Qed.

(** X6: the addresses of a concatenated service list are the addresses of
    its parts, concatenated: each service contributes on its own. *)
Theorem serviceAddresses_app (s1 s2 : list Services.Service) :
  Services.serviceAddresses isAddress (s1 ++ s2)
  = Services.serviceAddresses isAddress s1 ++ Services.serviceAddresses isAddress s2.
Proof.
  rewrite !serviceAddresses_is_validCandidates. apply validCandidates_app.
Qed.

Lemma filter_nil_iff {A : Type} (f : A -> bool) (l : list A) :
  List.filter f l = [] <-> forall x, In x l -> f x = false.
Proof.
  induction l as [|y l IH]; simpl.
  - split; [intros _ x [] | reflexivity].
  - destruct (f y) eqn:Hy.
    + split; [discriminate|]. intros H. specialize (H y (or_introl eq_refl)). congruence.
    + rewrite IH. split.
      * intros H x [<- | Hx]; [exact Hy | apply H, Hx].
      * intros H x Hx. apply H. right. exact Hx.
Qed.

(** X7: the derived list is empty exactly when none of the instance and
    multisig values of any service passes [isAddress]. *)
Theorem serviceAddresses_empty_iff (services : list Services.Service) :
  Services.serviceAddresses isAddress services = [] <->
  forall v, In v (addressCandidates services) -> isAddress (template v) = false.
Proof.
  rewrite serviceAddresses_is_validCandidates. unfold validCandidates.
  apply filter_nil_iff.
Qed.

Lemma presentAddresses_all_truthy (l : list Val) :
  (forall v, In v l -> truthy v = true) ->
  presentAddresses l = map template l.
Proof.
  induction l as [|v l IH]; intros Hall; simpl; [reflexivity|].
  rewrite IH by (intros x Hx; apply Hall; right; exact Hx).
  specialize (Hall v (or_introl eq_refl)).
  destruct v as [a|]; [| discriminate]. rewrite Hall. reflexivity.
Qed.

(** X8: when [isAddress] rejects the empty string and the string
    "undefined" (as the real one does), the second loop of [updateBalance]
    drops nothing: every service-derived address is put on the list, after
    the wallets' addresses and in the order it was derived. *)
Theorem walletsToCheck_keeps_service_addresses
        (ws : list WalletCtx.Wallet) (services : list Services.Service) :
  isAddress EmptyString = false ->
  isAddress "undefined" = false ->
  WalletCtx.walletsToCheck ws (Services.serviceAddresses isAddress services)
  = presentAddresses (map WalletCtx.address ws)
    ++ map template (Services.serviceAddresses isAddress services).
Proof.
  intros Hempty Hundef. rewrite walletsToCheck_present. f_equal.
  apply presentAddresses_all_truthy. intros v Hv.
  rewrite serviceAddresses_is_validCandidates in Hv. unfold validCandidates in Hv.
  apply List.filter_In in Hv as [_ Hvalid].
  destruct v as [[|c a]|]; simpl in *; congruence.
Qed.

End ServiceAddressMore.

Lemma walletsToCheck_keeps_service_addresses_witness :
  WalletCtx.walletsToCheck [WalletCtx.mkWallet (Some wallet3333)]
    (Services.serviceAddresses digitAddress [sampleService])
  = presentAddresses (map WalletCtx.address [WalletCtx.mkWallet (Some wallet3333)])
    ++ map template (Services.serviceAddresses digitAddress [sampleService]).
Proof.
  apply (walletsToCheck_keeps_service_addresses digitAddress
           [WalletCtx.mkWallet (Some wallet3333)] [sampleService]);
    reflexivity.
Defined.

(** ** ServicesProvider: the refresh loops *)

Section ServicesLoopMore.

Variable DeploymentStatus : Type.

Local Abbreviation Loop := (Services.Loop DeploymentStatus).
Local Abbreviation Event := (Services.Event DeploymentStatus).

Lemma run_invariant (P : list Event -> Loop -> Prop) :
  (forall history l e l',
     P history l -> Services.step l e = Some l' -> P (history ++ [e]) l') ->
  forall events history l l',
    P history l -> Services.run l events = Some l' -> P (history ++ events) l'.
Proof.
  intros Hstep. induction events as [|e events IH]; intros history l l' HP Hrun;
    simpl in Hrun.
  - injection Hrun as <-. rewrite app_nil_r. exact HP.
  - destruct (Services.step l e) as [l1|] eqn:He; [| discriminate].
    replace (history ++ e :: events) with ((history ++ [e]) ++ events)
      by (rewrite <- app_assoc; reflexivity).
    eapply IH; [| exact Hrun]. eapply Hstep; eassumption.
Qed.

(** X9: if the fetch started on mount is rejected, the provider is stuck
    for good: the list stays empty, [hasInitialLoaded] stays false, neither
    interval ever fires and nothing is reported. *)
Theorem failed_initial_load_is_final
        (reason : string) (events : list Event) (l : Loop) :
  Services.run Services.mounted (Services.InitialSettled (Rejected reason) :: events)
  = Some l ->
  events = [] /\
  l = Services.mkLoop (Services.mkState [] None false) false 0 [] [].
Proof.
  simpl. intros Hrun. destruct events as [|e events].
  - simpl in Hrun. injection Hrun as <-. split; reflexivity.
  - simpl in Hrun. destruct e as [r | | r | | r]; discriminate Hrun.
Qed.

Lemma step_keeps_loaded (l l' : Loop) (e : Event) :
  Services.step l e = Some l' ->
  Services.hasInitialLoaded (Services.state l) = true ->
  Services.hasInitialLoaded (Services.state l') = true.
Proof.
  intros Hstep Hloaded. destruct e as [r | | r | | r]; simpl in Hstep.
  - destruct (Services.initialPending l); [| discriminate].
    destruct r; injection Hstep as <-; simpl; auto.
  - destruct (Services.listDelay (Services.state l)); [| discriminate].
    injection Hstep as <-. exact Hloaded.
  - destruct (Services.listInFlight l); [discriminate|].
    destruct r; injection Hstep as <-; simpl; auto.
  - destruct (Services.statusDelay (Services.state l)); [| discriminate].
    destruct (Services.services (Services.state l)); injection Hstep as <-; auto.
  - destruct (Services.statusInFlight l); [discriminate|].
    destruct r; injection Hstep as <-; simpl; auto.
Qed.

(** X10: [hasInitialLoaded] never goes back: once it is set it stays set
    through every later event, so the list refresh is never switched off
    again, not even by failing refreshes. *)
Theorem hasInitialLoaded_is_stable (events : list Event) :
  forall l l' : Loop,
    Services.run l events = Some l' ->
    Services.hasInitialLoaded (Services.state l) = true ->
    Services.hasInitialLoaded (Services.state l') = true /\
    Services.listDelay (Services.state l') = Some 5000.
Proof.
  induction events as [|e events IH]; intros l l' Hrun Hloaded; simpl in Hrun.
  - injection Hrun as <-. unfold Services.listDelay. rewrite Hloaded. auto.
  - destruct (Services.step l e) as [l1|] eqn:He; [| discriminate].
    apply (IH l1 l' Hrun). eapply step_keeps_loaded; eassumption.
Qed.

(** X11: the error channel receives exactly the messages of the rejected
    list refreshes, in order; a rejected first fetch or status request is
    never reported. *)
Theorem notifications_are_list_errors (events : list Event) :
  forall l l' : Loop,
    Services.run l events = Some l' ->
    Services.notifications l' = Services.notifications l ++ listErrors events.
Proof.
  induction events as [|e events IH]; intros l l' Hrun; simpl in Hrun.
  - injection Hrun as <-. simpl. rewrite app_nil_r. reflexivity.
  - destruct (Services.step l e) as [l1|] eqn:He; [| discriminate].
    rewrite (IH l1 l' Hrun). unfold listErrors. simpl.
    destruct e as [r | | r | | r]; simpl in He.
    + destruct (Services.initialPending l); [| discriminate].
      destruct r; injection He as <-; reflexivity.
    + destruct (Services.listDelay (Services.state l)); [| discriminate].
      injection He as <-. reflexivity.
    + destruct (Services.listInFlight l); [discriminate|].
      destruct r; injection He as <-; simpl; [reflexivity|].
      rewrite <- app_assoc. reflexivity.
    + destruct (Services.statusDelay (Services.state l)); [| discriminate].
      destruct (Services.services (Services.state l)) eqn:Hsv;
        injection He as <-; simpl; rewrite ?Hsv; reflexivity.
    + destruct (Services.statusInFlight l); [discriminate|].
      destruct r; injection He as <-; reflexivity.
Qed.

(** X12: the service list is always the one the latest fulfilled fetch
    delivered, taken over as a whole; rejected fetches and status traffic
    leave it alone. *)
Theorem services_are_latest_fetch (events : list Event) :
  forall l l' : Loop,
    Services.run l events = Some l' ->
    Services.services (Services.state l')
    = lastServices (Services.services (Services.state l)) events.
Proof.
  induction events as [|e events IH]; intros l l' Hrun; simpl in Hrun.
  - injection Hrun as <-. reflexivity.
  - destruct (Services.step l e) as [l1|] eqn:He; [| discriminate].
    rewrite (IH l1 l' Hrun). unfold lastServices. simpl. f_equal.
    destruct e as [r | | r | | r]; simpl in He.
    + destruct (Services.initialPending l); [| discriminate].
      destruct r; injection He as <-; reflexivity.
    + destruct (Services.listDelay (Services.state l)); [| discriminate].
      injection He as <-. reflexivity.
    + destruct (Services.listInFlight l); [discriminate|].
      destruct r; injection He as <-; reflexivity.
    + destruct (Services.statusDelay (Services.state l)); [| discriminate].
      destruct (Services.services (Services.state l)) eqn:Hsv;
        injection He as <-; simpl; rewrite ?Hsv; reflexivity.
    + destruct (Services.statusInFlight l); [discriminate|].
      destruct r; injection He as <-; reflexivity.
Qed.

(** X13: the status field holds the answer of the latest fulfilled status
    request (last value wins); list fetches and rejected status requests do
    not touch it. *)
Theorem serviceStatus_is_latest_answer (events : list Event) :
  forall l l' : Loop,
    Services.run l events = Some l' ->
    Services.serviceStatus (Services.state l')
    = lastStatus (Services.serviceStatus (Services.state l)) events.
Proof.
  induction events as [|e events IH]; intros l l' Hrun; simpl in Hrun.
  - injection Hrun as <-. reflexivity.
  - destruct (Services.step l e) as [l1|] eqn:He; [| discriminate].
    rewrite (IH l1 l' Hrun). unfold lastStatus. simpl. f_equal.
    destruct e as [r | | r | | r]; simpl in He.
    + destruct (Services.initialPending l); [| discriminate].
      destruct r; injection He as <-; reflexivity.
    + destruct (Services.listDelay (Services.state l)); [| discriminate].
      injection He as <-. reflexivity.
    + destruct (Services.listInFlight l); [discriminate|].
      destruct r; injection He as <-; reflexivity.
    + destruct (Services.statusDelay (Services.state l)); [| discriminate].
      destruct (Services.services (Services.state l)) eqn:Hsv;
        injection He as <-; simpl; rewrite ?Hsv; reflexivity.
    + destruct (Services.statusInFlight l); [discriminate|].
      destruct r; injection He as <-; reflexivity.
Qed.

End ServicesLoopMore.

Section ServicesRequestsMore.

Variable DeploymentStatus : Type.

Local Abbreviation Loop := (Services.Loop DeploymentStatus).
Local Abbreviation Event := (Services.Event DeploymentStatus).

Lemma delivered_snoc (history : list Event) (e : Event) (data : list Services.Service) :
  delivered history data -> delivered (history ++ [e]) data.
Proof. intros [H | H]; [left | right]; apply in_or_app; left; exact H. Qed.

Lemma status_requests_step (history : list Event) (l l' : Loop) (e : Event) :
  ((Services.services (Services.state l) = [] \/
    delivered history (Services.services (Services.state l))) /\
   forall h, In h (Services.statusInFlight l) ->
             exists first rest, delivered history (first :: rest) /\
                                Services.hash first = h) ->
  Services.step l e = Some l' ->
  ((Services.services (Services.state l') = [] \/
    delivered (history ++ [e]) (Services.services (Services.state l'))) /\
   forall h, In h (Services.statusInFlight l') ->
             exists first rest, delivered (history ++ [e]) (first :: rest) /\
                                Services.hash first = h).
Proof.
  intros [Hsv Hreq] Hstep.
  assert (Hsv' : Services.services (Services.state l) = [] \/
                 delivered (history ++ [e]) (Services.services (Services.state l)))
    by (destruct Hsv; [left | right; apply delivered_snoc]; assumption).
  assert (Hreq' : forall h, In h (Services.statusInFlight l) ->
                            exists first rest,
                              delivered (history ++ [e]) (first :: rest) /\
                              Services.hash first = h).
  { intros h Hh. destruct (Hreq h Hh) as (first & rest & Hd & Hhash).
    exists first, rest. split; [apply delivered_snoc; exact Hd | exact Hhash]. }
  destruct e as [r | | r | | r]; simpl in Hstep.
  - destruct (Services.initialPending l); [| discriminate].
    destruct r as [data | reason]; injection Hstep as <-; simpl;
      (split; [| exact Hreq']); [| exact Hsv'].
    right. left. apply in_or_app. right. left. reflexivity.
  - destruct (Services.listDelay (Services.state l)); [| discriminate].
    injection Hstep as <-. simpl. split; assumption.
  - destruct (Services.listInFlight l); [discriminate|].
    destruct r as [data | msg]; injection Hstep as <-; simpl;
      (split; [| exact Hreq']); [| exact Hsv'].
    right. right. apply in_or_app. right. left. reflexivity.
  - destruct (Services.statusDelay (Services.state l)); [| discriminate].
    destruct (Services.services (Services.state l)) as [|first rest] eqn:Hlist.
    + injection Hstep as <-. rewrite Hlist. split; assumption.
    + injection Hstep as <-. simpl. rewrite Hlist. split; [exact Hsv'|].
      intros h Hh. apply in_app_or in Hh as [Hh | [<- | []]].
      * apply Hreq'. exact Hh.
      * exists first, rest. split; [| reflexivity].
        destruct Hsv' as [Hnil | Hd]; [discriminate Hnil | exact Hd].
  - destruct (Services.statusInFlight l) as [|h0 pending] eqn:Hpending;
      [discriminate|].
    destruct r as [status | reason]; injection Hstep as <-; simpl;
      (split; [exact Hsv'|]); intros h Hh; apply Hreq'; right; exact Hh.
Qed.

Lemma status_requests_invariant (events : list Event) (l : Loop) :
  Services.run Services.mounted events = Some l ->
  (Services.services (Services.state l) = [] \/
   delivered events (Services.services (Services.state l))) /\
  forall h, In h (Services.statusInFlight l) ->
            exists first rest, delivered events (first :: rest) /\
                               Services.hash first = h.
Proof.
  intros Hrun.
  apply (run_invariant DeploymentStatus
           (fun history l =>
              (Services.services (Services.state l) = [] \/
               delivered history (Services.services (Services.state l))) /\
              forall h, In h (Services.statusInFlight l) ->
                        exists first rest, delivered history (first :: rest) /\
                                           Services.hash first = h)
           (fun history l0 e l1 => status_requests_step history l0 l1 e)
           events [] Services.mounted l).
  - split; [left; reflexivity | intros h []].
  - exact Hrun.
Qed.

(** X14: whenever the status interval fires, the service list it reads is
    not empty, it is a list that a fulfilled fetch delivered, and the one
    request the tick sends asks for the hash of its first service; so every
    status request that is under way names the first service of a
    delivered, non-empty list, and no other service is ever asked about. *)
Theorem status_requests_name_first_service (events : list Event) (l : Loop) :
  Services.run Services.mounted events = Some l ->
  (forall before after,
     events = before ++ Services.StatusTick :: after ->
     exists l0 first rest,
       Services.run Services.mounted before = Some l0 /\
       Services.services (Services.state l0) = first :: rest /\
       delivered before (first :: rest) /\
       Services.step l0 Services.StatusTick
       = Some (Services.mkLoop (Services.state l0) (Services.initialPending l0)
                 (Services.listInFlight l0)
                 (Services.statusInFlight l0 ++ [Services.hash first])
                 (Services.notifications l0))) /\
  (forall h, In h (Services.statusInFlight l) ->
             exists first rest, delivered events (first :: rest) /\
                                Services.hash first = h).
Proof.
  intros Hrun. split.
  - intros before after ->. rewrite run_app in Hrun.
    destruct (Services.run Services.mounted before) as [l0|] eqn:Hbefore;
      [| discriminate].
    destruct (status_requests_invariant before l0 Hbefore) as [Hsv _].
    assert (Hdelay : Services.statusDelay (Services.state l0) <> None).
    { intros Hnone. cbn [Services.run Services.step] in Hrun.
      rewrite Hnone in Hrun. discriminate Hrun. }
    pose proof (proj1 (statusDelay_enabled _ _) Hdelay) as Hne.
    destruct (Services.services (Services.state l0)) as [|first rest] eqn:Hlist;
      [contradiction|].
    exists l0, first, rest.
    split; [reflexivity|]. split; [exact Hlist|]. split.
    + destruct Hsv as [Hnil | Hd]; [discriminate Hnil | exact Hd].
    + cbn [Services.step].
      destruct (Services.statusDelay (Services.state l0)); [| contradiction].
      rewrite Hlist. reflexivity.
  - apply status_requests_invariant. exact Hrun.
Qed.

End ServicesRequestsMore.

(** ** WalletProvider: one refresh *)

Lemma presentAddresses_nil_iff (l : list Val) :
  presentAddresses l = [] <-> forall v, In v l -> truthy v = false.
Proof.
  induction l as [|v l IH]; simpl.
  - split; [intros _ x [] | reflexivity].
  - split.
    + intros H. apply app_eq_nil in H as [Hv Hl].
      intros x [<- | Hx]; [| apply IH; assumption].
      destruct v as [[|c a]|]; simpl in *; try reflexivity. discriminate Hv.
    + intros H. rewrite (proj2 IH) by (intros x Hx; apply H; right; exact Hx).
      specialize (H v (or_introl eq_refl)).
      destruct v as [a|]; [rewrite H |]; reflexivity.
Qed.

Section RefreshMore.

Variable GNOSIS_RPC : string.
Variable getEthBalance : nat -> Address -> string -> Settled float.

Local Abbreviation updateBalance :=
  (WalletCtx.updateBalance GNOSIS_RPC getEthBalance).

(** X15: a refresh sends one request per wallet address and per service
    address that is present (not undefined, not empty), wallets first, all
    to the configured endpoint; values that are missing are skipped and
    nothing else is filtered. *)
Theorem updateBalance_requests
        (serviceAddresses : list Val) (s : WalletCtx.State) :
  snd (updateBalance serviceAddresses s)
  = map (fun a => (a, GNOSIS_RPC))
        (presentAddresses (map WalletCtx.address (WalletCtx.wallets s))
         ++ presentAddresses serviceAddresses).
Proof.
  unfold WalletCtx.updateBalance, WalletCtx.requests. simpl.
  rewrite walletsToCheck_present. reflexivity.
Qed.

(** X16: a refresh sends nothing exactly when no wallet and no service
    address is present, and it then publishes 0 rather than leaving the
    balance undefined. *)
Theorem updateBalance_nothing_to_check
        (serviceAddresses : list Val) (s : WalletCtx.State) :
  (snd (updateBalance serviceAddresses s) = [] <->
   (forall w, In w (WalletCtx.wallets s) -> truthy (WalletCtx.address w) = false) /\
   (forall v, In v serviceAddresses -> truthy v = false)) /\
  (snd (updateBalance serviceAddresses s) = [] ->
   WalletCtx.balance (fst (updateBalance serviceAddresses s)) = Some 0%float).
Proof.
  unfold WalletCtx.updateBalance, WalletCtx.requests. simpl. split.
  - rewrite walletsToCheck_present. split.
    + intros H. apply map_eq_nil in H. apply app_eq_nil in H as [Hw Hs]. split.
      * intros w Hw'. apply (proj1 (presentAddresses_nil_iff _) Hw).
        apply in_map. exact Hw'.
      * apply presentAddresses_nil_iff. exact Hs.
    + intros [Hw Hs].
      rewrite (proj2 (presentAddresses_nil_iff serviceAddresses) Hs).
      rewrite (proj2 (presentAddresses_nil_iff _)); [reflexivity|].
      intros v Hv. apply in_map_iff in Hv as (w & <- & Hin). apply Hw. exact Hin.
  - intros H. apply map_eq_nil in H. rewrite H. reflexivity.
Qed.

End RefreshMore.

(** ** WalletProvider: the poller in time *)

Lemma div_succ (d n : nat) :
  0 < d ->
  S n / d = n / d + (if S n mod d =? 0 then 1 else 0).
Proof.
  intros Hd.
  pose proof (Nat.div_mod_eq n d) as Hn.
  pose proof (Nat.div_mod_eq (S n) d) as Hs.
  pose proof (Nat.mod_upper_bound n d ltac:(lia)) as Hr.
  pose proof (Nat.mod_upper_bound (S n) d ltac:(lia)) as Hr'.
  destruct (Nat.eqb_spec (S n mod d) 0) as [H0 | H0]; nia.
Qed.

Lemma between_multiples (d k : nat) : 0 < k < d -> (d + k) mod d <> 0.
Proof.
  intros Hk H. apply Nat.Div0.mod_divides in H as [c Hc].
  destruct c as [|[|c]]; nia.
Qed.

Section PollerMore.

Variable GNOSIS_RPC : string.
Variable serviceAddresses : list Val.
Variable getEthBalanceAt : nat -> nat -> Address -> string -> Settled float.
Variable latency : nat -> nat.

Local Abbreviation tick :=
  (WalletCtx.tick GNOSIS_RPC serviceAddresses getEthBalanceAt latency).
Local Abbreviation after :=
  (WalletCtx.after GNOSIS_RPC serviceAddresses getEthBalanceAt latency).

Local Arguments Interval.fires : simpl never.
Local Arguments Nat.modulo : simpl never.
Local Arguments Nat.div : simpl never.

(** X17: without wallets the poller does nothing at all, however long it
    runs and whatever service addresses there are: no request, no refresh
    under way, and the balance keeps the value it had. *)
Theorem poller_without_wallets_is_frozen (b : option float) (n : nat) :
  after n (WalletCtx.start [] b)
  = WalletCtx.mkPoller n (WalletCtx.mkState [] b) [] [].
Proof.
  induction n as [|n IH]; simpl; [reflexivity|].
  rewrite IH. reflexivity.
Qed.

Lemma poller_idle_until_5000
        (ws : list WalletCtx.Wallet) (b : option float) (n : nat) :
  n < 5000 ->
  after n (WalletCtx.start ws b)
  = WalletCtx.mkPoller n (WalletCtx.mkState ws b) [] [].
Proof.
  induction n as [|n IH]; intros Hn; simpl; [reflexivity|].
  rewrite IH by lia. unfold WalletCtx.tick. simpl.
  destruct (balanceDelay_cases (WalletCtx.mkState ws b)) as [[_ Hd] | [_ Hd]];
    rewrite Hd.
  - reflexivity.
  - destruct (Interval.fires (Some 5000) (S n)) eqn:Hf; [| reflexivity].
    apply fires_iff in Hf as [_ Hf]. rewrite Nat.mod_small in Hf by lia.
    discriminate Hf.
Qed.

(** X18: in the first 5000 ms after mounting nothing happens: no request
    is sent, no refresh is under way and the balance is not touched. *)
Theorem poller_quiet_before_first_interval
        (ws : list WalletCtx.Wallet) (b : option float) (n : nat) :
  n < 5000 ->
  WalletCtx.rpcLog (after n (WalletCtx.start ws b)) = [] /\
  WalletCtx.inFlight (after n (WalletCtx.start ws b)) = [] /\
  WalletCtx.state (after n (WalletCtx.start ws b)) = WalletCtx.mkState ws b.
Proof.
  intros Hn. rewrite poller_idle_until_5000 by exact Hn.
  repeat split; reflexivity.
Qed.

Lemma tick_rpcLog (p : WalletCtx.Poller) :
  WalletCtx.rpcLog (tick p)
  = WalletCtx.rpcLog p
    ++ (if Interval.fires (WalletCtx.balanceDelay (WalletCtx.state p))
                          (S (WalletCtx.now p))
        then WalletCtx.requests GNOSIS_RPC
               (WalletCtx.walletsToCheck (WalletCtx.wallets (WalletCtx.state p))
                                         serviceAddresses)
        else []).
Proof.
  unfold WalletCtx.tick.
  rewrite (balanceDelay_wallets (WalletCtx.state p) _ (publish_wallets _ _)).
  destruct (Interval.fires _ _); simpl.
  - rewrite publish_wallets. reflexivity.
  - symmetry. apply app_nil_r.
Qed.

(** X19: with at least one wallet record the poller sends one batch of
    requests every 5000 ms, whatever the latencies and outcomes: after [n]
    ms the log consists of [n / 5000] copies of the batch. *)
Theorem poller_request_log
        (ws : list WalletCtx.Wallet) (b : option float) (n : nat) :
  ws <> [] ->
  WalletCtx.rpcLog (after n (WalletCtx.start ws b))
  = concat (replicate (n / 5000)
              (WalletCtx.requests GNOSIS_RPC
                 (WalletCtx.walletsToCheck ws serviceAddresses))).
Proof.
  intros Hws. induction n as [|n IH].
  - reflexivity.
  - change (after (S n) (WalletCtx.start ws b))
      with (tick (after n (WalletCtx.start ws b))).
    rewrite tick_rpcLog, IH, after_now.
    rewrite (balanceDelay_wallets (WalletCtx.mkState ws b))
      by (rewrite after_wallets; reflexivity).
    rewrite after_wallets.
    change (WalletCtx.now (WalletCtx.start ws b)) with 0. rewrite Nat.add_0_r.
    change (WalletCtx.wallets (WalletCtx.state (WalletCtx.start ws b))) with ws.
    destruct (balanceDelay_cases (WalletCtx.mkState ws b)) as [[Hnil _] | [_ Hd]];
      [contradiction|].
    rewrite Hd, (div_succ 5000 n) by lia.
    unfold Interval.fires. change (0 <? S n) with true. rewrite andb_true_l.
    destruct (S n mod 5000 =? 0).
    + rewrite Nat.add_1_r, replicate_S_end, concat_app. simpl.
      rewrite app_nil_r. reflexivity.
    + rewrite Nat.add_0_r. apply app_nil_r.
Qed.

Lemma after_S (n : nat) (p : WalletCtx.Poller) : after (S n) p = tick (after n p).
Proof. reflexivity. Qed.

Lemma first_refresh_waiting (ws : list WalletCtx.Wallet) (b : option float) (k : nat) :
  ws <> [] ->
  k < latency 5000 -> k < 5000 ->
  after (5000 + k) (WalletCtx.start ws b)
  = WalletCtx.mkPoller (5000 + k) (WalletCtx.mkState ws b)
      [WalletCtx.mkCycle 5000 (5000 + latency 5000)
         (WalletCtx.settledBalances GNOSIS_RPC (getEthBalanceAt 5000)
            (WalletCtx.walletsToCheck ws serviceAddresses))]
      (WalletCtx.requests GNOSIS_RPC (WalletCtx.walletsToCheck ws serviceAddresses)).
Proof.
  intros Hws. 
  assert (Hd : WalletCtx.balanceDelay (WalletCtx.mkState ws b) = Some 5000).
  { destruct (balanceDelay_cases (WalletCtx.mkState ws b)) as [[Hnil _] | [_ Hd]];
      [contradiction | exact Hd]. }
  induction k as [|k IH]; intros Hk Hk'.
  - rewrite Nat.add_0_r.
    rewrite (after_S 4999), (poller_idle_until_5000 ws b 4999) by lia.
    unfold WalletCtx.tick.
    change (S (WalletCtx.now (WalletCtx.mkPoller 4999 (WalletCtx.mkState ws b) [] [])))
      with 5000.
    cbn [WalletCtx.inFlight WalletCtx.state WalletCtx.rpcLog List.filter fold_left app].
    rewrite Hd.
    assert (Hf : Interval.fires (Some 5000) 5000 = true)
      by (apply fires_iff; split; [lia | apply Nat.Div0.mod_same]).
    rewrite Hf. reflexivity.
  - rewrite Nat.add_succ_r, after_S, IH by lia.
    unfold WalletCtx.tick.
    cbn [WalletCtx.inFlight WalletCtx.state WalletCtx.rpcLog WalletCtx.now
         WalletCtx.settlesAt List.filter].
    assert (Hwait : (5000 + latency 5000 <=? S (5000 + k)) = false)
      by (apply Nat.leb_gt; lia).
    rewrite Hwait. cbn [negb fold_left]. rewrite Hd.
    assert (Hf : Interval.fires (Some 5000) (S (5000 + k)) = false).
    { destruct (Interval.fires (Some 5000) (S (5000 + k))) eqn:Hf; [| reflexivity].
      apply fires_iff in Hf as [_ Hf]. exfalso.
      apply (between_multiples 5000 (S k)); [lia|].
      rewrite Nat.add_succ_r. exact Hf. }
    rewrite Hf. reflexivity.
Qed.

(** X20: with at least one wallet record and a first refresh that takes
    between 1 and 4999 ms, the balance keeps its old value until the
    answers are in and is then, at 5000 + latency ms, replaced by the sum
    of the fulfilled answers of that refresh. *)
Theorem first_balance_published
        (ws : list WalletCtx.Wallet) (b : option float) :
  ws <> [] ->
  0 < latency 5000 < 5000 ->
  (forall n, n < 5000 + latency 5000 ->
             WalletCtx.balance (WalletCtx.state (after n (WalletCtx.start ws b))) = b) /\
  WalletCtx.balance
    (WalletCtx.state (after (5000 + latency 5000) (WalletCtx.start ws b)))
  = Some (WalletCtx.sumFulfilled
            (WalletCtx.settledBalances GNOSIS_RPC (getEthBalanceAt 5000)
               (WalletCtx.walletsToCheck ws serviceAddresses))).
Proof.
  intros Hws Hlat. split.
  - intros n Hn. destruct (Nat.lt_ge_cases n 5000) as [Hlt | Hge].
    + rewrite poller_idle_until_5000 by exact Hlt. reflexivity.
    + replace n with (5000 + (n - 5000)) by lia.
      rewrite first_refresh_waiting by (try exact Hws; lia). reflexivity.
  - destruct (latency 5000) as [|k] eqn:Hk; [lia|].
    rewrite Nat.add_succ_r, after_S.
    rewrite first_refresh_waiting by (try exact Hws; lia).
    unfold WalletCtx.tick.
    cbn [WalletCtx.inFlight WalletCtx.state WalletCtx.rpcLog WalletCtx.now
         WalletCtx.settlesAt List.filter].
    rewrite Hk.
    assert (Hdone : (5000 + S k <=? S (5000 + k)) = true)
      by (apply Nat.leb_le; lia).
    rewrite Hdone. cbn [negb fold_left].
    destruct (Interval.fires _ _); reflexivity.
Qed.

End PollerMore.

(** ** The account funding screen *)

Section FundingFacts.

Variable safeCreation : float.
Variable toNumber : string -> float.

Local Abbreviation isFundedMasterEoa :=
  (SetupEoaFunding.isFundedMasterEoa safeCreation toNumber).

Local Arguments PrimFloat.is_nan : simpl never.

(** X21: the master account counts as funded exactly when it has a
    non-empty address, the balances are loaded and hold an ETH amount for
    that address, and this amount is a number other than 0 and NaN that
    reaches the threshold. *)
Theorem isFundedMasterEoa_truthy_iff
        (masterEoaAddress : Val) (walletBalances : option (gmap string float)) :
  SetupEoaFunding.jsTruthy (isFundedMasterEoa masterEoaAddress walletBalances) = true
  <->
  exists a balances eth,
    masterEoaAddress = Some a /\ a <> EmptyString /\
    walletBalances = Some balances /\ balances !! a = Some eth /\
    PrimFloat.eqb eth 0%float = false /\ PrimFloat.is_nan eth = false /\
    PrimFloat.leb safeCreation eth = true.
Proof.
  unfold SetupEoaFunding.isFundedMasterEoa, SetupEoaFunding.masterEaoEthBalance.
  split.
  - destruct masterEoaAddress as [[|c a]|]; simpl; try discriminate.
    destruct walletBalances as [balances|]; simpl; [| discriminate].
    destruct (balances !! String c a) as [eth|] eqn:Hlookup; simpl; [| discriminate].
    destruct (PrimFloat.eqb eth 0) eqn:Hzero;
      destruct (PrimFloat.is_nan eth) eqn:Hnan;
      simpl; rewrite ?Hzero, ?Hnan; simpl; try discriminate.
    intros Hge. exists (String c a), balances, eth.
    repeat split; try assumption. discriminate.
  - intros (a & balances & eth & -> & Ha & -> & Hlookup & Hzero & Hnan & Hge).
    destruct a as [|c a]; [congruence|].
    cbn [truthy template]. rewrite Hlookup.
    cbn [SetupEoaFunding.jsTruthy negb andb]. rewrite Hzero, Hnan.
    cbn [SetupEoaFunding.jsTruthy SetupEoaFunding.geThreshold negb andb].
    exact Hge.
Qed.

(** X22: an amount of 0 never counts as funded, not even with a threshold
    of 0 or below: the screen keeps waiting and does not move on. *)
Theorem zero_balance_keeps_waiting
        (a : string) (balances : gmap string float) (eth : float) :
  balances !! a = Some eth ->
  PrimFloat.eqb eth 0%float = true ->
  SetupEoaFunding.statusMessage (isFundedMasterEoa (Some a) (Some balances))
  = "Waiting for transaction" /\
  SetupEoaFunding.fundedEffect (isFundedMasterEoa (Some a) (Some balances)) = [].
Proof.
  intros Hlookup Hzero.
  assert (Hfalse : SetupEoaFunding.jsTruthy
                     (isFundedMasterEoa (Some a) (Some balances)) = false).
  { unfold SetupEoaFunding.isFundedMasterEoa, SetupEoaFunding.masterEaoEthBalance.
    destruct a as [|c a]; [reflexivity|].
    cbn [truthy template]. rewrite Hlookup.
    cbn [SetupEoaFunding.jsTruthy negb andb]. rewrite Hzero.
    cbn [SetupEoaFunding.jsTruthy negb andb]. rewrite Hzero. reflexivity. }
  unfold SetupEoaFunding.statusMessage, SetupEoaFunding.fundedEffect.
  rewrite Hfalse. split; reflexivity.
Qed.

End FundingFacts.

(** ** components/Wallet/Receive.tsx *)

Lemma append_length (s t : string) :
  String.length (String.append s t) = String.length s + String.length t.
Proof. induction s as [|c s IH]; simpl; [reflexivity | rewrite IH; reflexivity]. Qed.

Lemma append_inv_head (p s t : string) :
  String.append p s = String.append p t -> s = t.
Proof.
  induction p as [|c p IH]; simpl; intros H; [exact H|].
  injection H as H. apply IH. exact H.
Qed.

Lemma append_inv_tail (t : string) :
  forall s s' : string, String.append s t = String.append s' t -> s = s'.
Proof.
  induction s as [|c s IH]; intros [|c' s'] H; simpl in H.
  - reflexivity.
  - apply (f_equal String.length) in H. simpl in H.
    rewrite !append_length in H. simpl in H. lia.
  - apply (f_equal String.length) in H. simpl in H.
    rewrite !append_length in H. simpl in H. lia.
  - injection H as -> H. f_equal. apply IH. exact H.
Qed.

(** X23: the payment link of the receive screen determines the address it
    was built from: two wallet lists give the same link only if their first
    wallets show the same address text. *)
Theorem qrValue_determines_address (ws1 ws2 : list WalletCtx.Wallet) :
  Receive.qrValue ws1 = Receive.qrValue ws2 ->
  template (Receive.walletAddress ws1) = template (Receive.walletAddress ws2).
Proof.
  unfold Receive.qrValue. intros H.
  apply append_inv_head in H. apply append_inv_tail in H. exact H.
Qed.

(** ** service/Multicall.ts: token balances *)

Section Erc20More.

Variable MULTICALL_CONTRACT : Address.
Variable all : Multicall.Provider -> list Multicall.ContractCall -> Settled (list Z).
Variable formatUnits : Z -> Z -> string.
Variable parseFloat : string -> float.

(** X24: when the aggregate answers with one value per call,
    [getErc20Balances] returns an object whose keys are exactly the input
    addresses. *)
Theorem getErc20Balances_entries
        (addresses : list Address) (rpc : string) (contractAddress : Address)
        (r : list Z) :
  all (Multicall.mkProvider rpc None 100)
      (Multicall.erc20CallData MULTICALL_CONTRACT addresses contractAddress)
  = Fulfilled r ->
  length r = length addresses ->
  exists m,
    Multicall.getErc20Balances MULTICALL_CONTRACT all formatUnits parseFloat
      addresses rpc contractAddress = Fulfilled m /\
    forall a, a ∈ addresses <-> is_Some (m !! a).
Proof.
  intros Hall Hlen. unfold Multicall.getErc20Balances. rewrite Hall. simpl.
  eexists. split; [reflexivity|]. intros a.
  apply (reduce_entries_domain addresses
           (fun raw => parseFloat (formatUnits raw 18)) r a Hlen).
Qed.

End Erc20More.

(** ** The further properties at sample inputs *)

Lemma balances_only_ask_chain_100_witness :
  Multicall.getEthBalances sampleMulticall sampleAll sampleFormatEther
    sampleParseFloat [wallet1111; wallet2222] sampleRpc
  = Multicall.getEthBalances sampleMulticall sampleAllChain100 sampleFormatEther
      sampleParseFloat [wallet1111; wallet2222] sampleRpc
  /\
  Multicall.getErc20Balances sampleMulticall sampleAll sampleFormatUnits
    sampleParseFloat [wallet1111; wallet2222] sampleRpc wallet3333
  = Multicall.getErc20Balances sampleMulticall sampleAllChain100 sampleFormatUnits
      sampleParseFloat [wallet1111; wallet2222] sampleRpc wallet3333.
Proof.
  apply (balances_only_ask_chain_100 sampleMulticall sampleFormatEther
           sampleFormatUnits sampleParseFloat sampleAll sampleAllChain100).
  intros p calls Hchain _. unfold sampleAllChain100. rewrite Hchain. reflexivity.
Defined.

Lemma getEthBalances_short_response_witness :
  exists m,
    Multicall.getEthBalances sampleMulticall sampleAllShort sampleFormatEther
      sampleParseFloat [wallet1111; wallet2222] sampleRpc = Fulfilled m /\
    forall a, is_Some (m !! a) <-> a ∈ take 1 [wallet1111; wallet2222].
Proof.
  apply (getEthBalances_short_response sampleMulticall sampleFormatEther
           sampleParseFloat sampleAllShort [wallet1111; wallet2222] sampleRpc
           [sampleUnit]).
  - reflexivity.
  - simpl. lia.
Defined.

Lemma getEthBalances_long_response_witness :
  exists m,
    Multicall.getEthBalances sampleMulticall sampleAllLong sampleFormatEther
      sampleParseFloat [wallet1111; wallet2222] sampleRpc = Fulfilled m /\
    m !! "undefined" = Some (sampleParseFloat (sampleFormatEther sampleUnit)).
Proof.
  apply (getEthBalances_long_response sampleMulticall sampleFormatEther
           sampleParseFloat sampleAllLong [wallet1111; wallet2222] sampleRpc
           [sampleUnit; sampleUnit] sampleUnit).
  - reflexivity.
  - simpl. lia.
Defined.

Lemma getEthBalances_lookup_witness :
  exists m,
    Multicall.getEthBalances sampleMulticall sampleAll sampleFormatEther
      sampleParseFloat [wallet1111; wallet2222] sampleRpc = Fulfilled m /\
    (forall i a raw,
       [wallet1111; wallet2222] !! i = Some a ->
       [sampleUnit; sampleUnit] !! i = Some raw ->
       (forall j, i < j < 2 -> key_at [wallet1111; wallet2222] j <> a) ->
       m !! a = Some (sampleParseFloat (sampleFormatEther raw))) /\
    (forall a v, m !! a = Some v ->
       exists i raw, [sampleUnit; sampleUnit] !! i = Some raw /\
                     key_at [wallet1111; wallet2222] i = a /\
                     v = sampleParseFloat (sampleFormatEther raw)).
Proof.
  apply (getEthBalances_lookup sampleMulticall sampleFormatEther sampleParseFloat
           sampleAll [wallet1111; wallet2222] sampleRpc [sampleUnit; sampleUnit]).
  reflexivity.
Defined.

Lemma getEthBalances_size_witness :
  exists m,
    Multicall.getEthBalances sampleMulticall sampleAll sampleFormatEther
      sampleParseFloat [wallet1111; wallet2222] sampleRpc = Fulfilled m /\
    size m = 2.
Proof.
  apply (getEthBalances_size sampleMulticall sampleFormatEther sampleParseFloat
           sampleAll [wallet1111; wallet2222] sampleRpc [sampleUnit; sampleUnit]).
  - reflexivity.
  - reflexivity.
  - apply (bool_decide_unpack _). vm_compute. exact I.
Defined.

Lemma getErc20Balances_entries_witness :
  exists m,
    Multicall.getErc20Balances sampleMulticall sampleAll sampleFormatUnits
      sampleParseFloat [wallet1111; wallet2222] sampleRpc wallet3333 = Fulfilled m /\
    forall a, a ∈ [wallet1111; wallet2222] <-> is_Some (m !! a).
Proof.
  apply (getErc20Balances_entries sampleMulticall sampleAll sampleFormatUnits
           sampleParseFloat [wallet1111; wallet2222] sampleRpc wallet3333
           [sampleUnit; sampleUnit]);
    reflexivity.
Defined.

Lemma failed_initial_load_is_final_witness :
  @nil (Services.Event string) = [] /\
  Services.mkLoop (DeploymentStatus := string)
    (Services.mkState [] None false) false 0 [] []
  = Services.mkLoop (Services.mkState [] None false) false 0 [] [].
Proof.
  apply (failed_initial_load_is_final string "backend down" []
           (Services.mkLoop (Services.mkState [] None false) false 0 [] [])).
  reflexivity.
Defined.

Lemma hasInitialLoaded_is_stable_witness :
  Services.hasInitialLoaded (Services.state sampleLoop) = true /\
  Services.listDelay (Services.state sampleLoop) = Some 5000.
Proof.
  apply (hasInitialLoaded_is_stable string (tail sampleEvents)
           (Services.mkLoop (Services.mkState [sampleService] None true)
                            false 0 [] [])
           sampleLoop);
    reflexivity.
Defined.

Lemma notifications_are_list_errors_witness :
  Services.notifications sampleLoop
  = Services.notifications (Services.mounted (DeploymentStatus := string))
    ++ listErrors sampleEvents.
Proof.
  apply (notifications_are_list_errors string sampleEvents Services.mounted sampleLoop).
  reflexivity.
Defined.

Lemma services_are_latest_fetch_witness :
  Services.services (Services.state sampleLoop)
  = lastServices
      (Services.services (Services.state (Services.mounted (DeploymentStatus := string))))
      sampleEvents.
Proof.
  apply (services_are_latest_fetch string sampleEvents Services.mounted sampleLoop).
  reflexivity.
Defined.

Lemma serviceStatus_is_latest_answer_witness :
  Services.serviceStatus (Services.state sampleLoop)
  = lastStatus
      (Services.serviceStatus
         (Services.state (Services.mounted (DeploymentStatus := string))))
      sampleEvents.
Proof.
  apply (serviceStatus_is_latest_answer string sampleEvents Services.mounted sampleLoop).
  reflexivity.
Defined.

Lemma status_requests_name_first_service_witness :
  exists first rest, delivered sampleEvents (first :: rest) /\
                     Services.hash first = "0xA".
Proof.
  apply (proj2 (status_requests_name_first_service string sampleEvents sampleLoop
                  ltac:(reflexivity))).
  simpl. left. reflexivity.
Defined.

Lemma updateBalance_nothing_to_check_witness :
  WalletCtx.balance
    (fst (WalletCtx.updateBalance sampleRpc (fun _ _ _ => Fulfilled 1.5%float)
            [None] (WalletCtx.mkState [WalletCtx.mkWallet None] (Some 4%float))))
  = Some 0%float.
Proof.
  apply (proj2 (updateBalance_nothing_to_check sampleRpc
                  (fun _ _ _ => Fulfilled 1.5%float) [None]
                  (WalletCtx.mkState [WalletCtx.mkWallet None] (Some 4%float)))).
  reflexivity.
Defined.

Lemma poller_quiet_before_first_interval_witness :
  let p := WalletCtx.after sampleRpc [] (fun _ _ _ _ => Fulfilled 1.5%float)
             (fun _ => 100) 4999 (WalletCtx.start sampleWallets None) in
  WalletCtx.rpcLog p = [] /\
  WalletCtx.inFlight p = [] /\
  WalletCtx.state p = WalletCtx.mkState sampleWallets None.
Proof.
  apply (poller_quiet_before_first_interval sampleRpc []
           (fun _ _ _ _ => Fulfilled 1.5%float) (fun _ => 100) sampleWallets None 4999).
  apply Nat.ltb_lt. vm_compute. reflexivity.
Defined.

Lemma poller_request_log_witness :
  WalletCtx.rpcLog
    (WalletCtx.after sampleRpc [] (fun _ _ _ _ => Fulfilled 1.5%float) (fun _ => 100)
       12000 (WalletCtx.start sampleWallets None))
  = concat (replicate (12000 / 5000)
              (WalletCtx.requests sampleRpc (WalletCtx.walletsToCheck sampleWallets []))).
Proof.
  apply (poller_request_log sampleRpc [] (fun _ _ _ _ => Fulfilled 1.5%float)
           (fun _ => 100) sampleWallets None 12000).
  discriminate.
Defined.

Lemma first_balance_published_witness :
  (forall n, n < 5000 + 100 ->
     WalletCtx.balance
       (WalletCtx.state
          (WalletCtx.after sampleRpc [] (fun _ _ _ _ => Fulfilled 1.5%float)
             (fun _ => 100) n (WalletCtx.start sampleWallets None))) = None) /\
  WalletCtx.balance
    (WalletCtx.state
       (WalletCtx.after sampleRpc [] (fun _ _ _ _ => Fulfilled 1.5%float)
          (fun _ => 100) (5000 + 100) (WalletCtx.start sampleWallets None)))
  = Some (WalletCtx.sumFulfilled
            (WalletCtx.settledBalances sampleRpc (fun _ _ _ => Fulfilled 1.5%float)
               (WalletCtx.walletsToCheck sampleWallets []))).
Proof.
  apply (first_balance_published sampleRpc [] (fun _ _ _ _ => Fulfilled 1.5%float)
           (fun _ => 100) sampleWallets None).
  - discriminate.
  - split; apply Nat.ltb_lt; vm_compute; reflexivity.
Defined.

Lemma zero_balance_keeps_waiting_witness :
  SetupEoaFunding.statusMessage
    (SetupEoaFunding.isFundedMasterEoa 0%float (fun _ => 0%float)
       (Some wallet1111) (Some {[wallet1111 := 0%float]}))
  = "Waiting for transaction" /\
  SetupEoaFunding.fundedEffect
    (SetupEoaFunding.isFundedMasterEoa 0%float (fun _ => 0%float)
       (Some wallet1111) (Some {[wallet1111 := 0%float]})) = [].
Proof.
  apply (zero_balance_keeps_waiting 0%float (fun _ => 0%float) wallet1111
           {[wallet1111 := 0%float]} 0%float).
  - apply lookup_singleton_eq.
  - reflexivity.
Defined.

Lemma qrValue_determines_address_witness :
  template (Receive.walletAddress sampleWallets)
  = template (Receive.walletAddress (sampleWallets ++ [WalletCtx.mkWallet None])).
Proof.
  apply (qrValue_determines_address sampleWallets
           (sampleWallets ++ [WalletCtx.mkWallet None])).
  reflexivity.
Defined.
